(** * QuestGen: the upload and generate-questions route handlers

    A shallow embedding of [app/api/generate-questions/route.ts]: the
    [POST] handler that stages uploaded files in the scratch directory and
    the [GET] handler that validates the query, calls the generation
    service and relays its event stream to the client as server-sent
    events.

    JavaScript strings are sequences of UTF-16 code units, JavaScript
    values are trees, the file system and the generation service are
    interfaces of the platform, and the stream writer is explicit state.
    [console.log] and friends have no effect on a response and are left
    out. *)

From Stdlib Require Import NArith ZArith List Bool String Ascii Lia.
From Stdlib Require Import DecimalPos DecimalN.
Import ListNotations.

Set Warnings "-register-all".

(* ================================================================== *)
(** ** JavaScript strings *)
(* ================================================================== *)

Module JsString.

Local Open Scope N_scope.

(** A string is its list of UTF-16 code units. *)
Definition jsstring := list N.

(** ASCII literals of the source. *)
Definition lit (s : string) : jsstring :=
  map N_of_ascii (list_ascii_of_string s).
Arguments lit s%_string.

Definition quote : jsstring := [34%N].
Definition backslash : jsstring := [92%N].
Definition newline : jsstring := [10%N].

Fixpoint eqb (a b : jsstring) : bool :=
  match a, b with
  | [], [] => true
  | x :: a', y :: b' => N.eqb x y && eqb a' b'
  | _, _ => false
  end.

(** [s.startsWith(p)] *)
Fixpoint startsWith (s p : jsstring) : bool :=
  match p, s with
  | [], _ => true
  | y :: p', x :: s' => N.eqb x y && startsWith s' p'
  | _ :: _, [] => false
  end.

(** [s.endsWith(p)] *)
Definition endsWith (s p : jsstring) : bool :=
  startsWith (rev s) (rev p).

(** WhiteSpace and LineTerminator code units, the ones [trim] strips. *)
Definition is_space (c : N) : bool :=
  ((9 <=? c) && (c <=? 13))        (* TAB LF VT FF CR *)
  || (c =? 32) || (c =? 160)       (* SP NBSP *)
  || (c =? 5760)                   (* U+1680 *)
  || ((8192 <=? c) && (c <=? 8202))  (* U+2000 .. U+200A *)
  || (c =? 8232) || (c =? 8233)    (* LS PS *)
  || (c =? 8239) || (c =? 8287)    (* U+202F U+205F *)
  || (c =? 12288) || (c =? 65279). (* U+3000 BOM *)

Fixpoint trimStart (s : jsstring) : jsstring :=
  match s with
  | [] => []
  | c :: r => if is_space c then trimStart r else s
  end.

Definition trimEnd (s : jsstring) : jsstring :=
  rev (trimStart (rev s)).

(** [s.trim()] *)
Definition trim (s : jsstring) : jsstring := trimEnd (trimStart s).

(** [s.split(",")]: the segments between the separators, always at
    least one. *)
Fixpoint split (sep : N) (s : jsstring) : list jsstring :=
  match s with
  | [] => [[]]
  | c :: r =>
      if N.eqb c sep then [] :: split sep r
      else match split sep r with
           | seg :: segs => (c :: seg) :: segs
           | [] => [[c]]
           end
  end.

(** [parts.join(sep)] *)
Fixpoint join (sep : jsstring) (parts : list jsstring) : jsstring :=
  match parts with
  | [] => []
  | [p] => p
  | p :: rest => p ++ sep ++ join sep rest
  end.

(** Decimal digits of a natural number, as [Number::toString] prints a
    non-negative integer below 10^21. *)
Fixpoint of_uint (d : Decimal.uint) : jsstring :=
  match d with
  | Decimal.Nil => []
  | Decimal.D0 d => 48 :: of_uint d
  | Decimal.D1 d => 49 :: of_uint d
  | Decimal.D2 d => 50 :: of_uint d
  | Decimal.D3 d => 51 :: of_uint d
  | Decimal.D4 d => 52 :: of_uint d
  | Decimal.D5 d => 53 :: of_uint d
  | Decimal.D6 d => 54 :: of_uint d
  | Decimal.D7 d => 55 :: of_uint d
  | Decimal.D8 d => 56 :: of_uint d
  | Decimal.D9 d => 57 :: of_uint d
  end.

Definition of_N (n : N) : jsstring := of_uint (N.to_uint n).

Definition of_Z (z : Z) : jsstring :=
  match z with
  | Zneg p => 45%N :: of_N (Npos p)
  | _ => of_N (Z.to_N z)
  end.

Definition is_digit (c : N) : bool := ((48 <=? c) && (c <=? 57))%N.

(** Surrogate code units. *)
Definition is_high (c : N) : bool := ((55296 <=? c) && (c <=? 56319))%N.
Definition is_low (c : N) : bool := ((56320 <=? c) && (c <=? 57343))%N.

Definition hex_digit (n : N) : N :=
  (if n <? 10 then 48 + n else 87 + n)%N.

(** [\uXXXX] with lower-case hexadecimal digits. *)
Definition unicode_escape (c : N) : jsstring :=
  (lit "\u" ++ [hex_digit (c / 4096 mod 16); hex_digit (c / 256 mod 16);
                hex_digit (c / 16 mod 16); hex_digit (c mod 16)])%N.

(** The body of QuoteJSONString: short escapes, [\u00xx] for the other
    control characters, [\udxxx] for a surrogate that is not part of a
    pair, every other code unit as it is. *)
Fixpoint json_escape (s : jsstring) : jsstring :=
  match s with
  | [] => []
  | c :: r =>
      if (c =? 8)%N then lit "\b" ++ json_escape r
      else if (c =? 9)%N then lit "\t" ++ json_escape r
      else if (c =? 10)%N then lit "\n" ++ json_escape r
      else if (c =? 12)%N then lit "\f" ++ json_escape r
      else if (c =? 13)%N then lit "\r" ++ json_escape r
      else if (c =? 34)%N then backslash ++ quote ++ json_escape r
      else if (c =? 92)%N then backslash ++ backslash ++ json_escape r
      else if (c <? 32)%N then unicode_escape c ++ json_escape r
      else if is_high c then
        match r with
        | d :: r' =>
            if is_low d then c :: d :: json_escape r'
            else unicode_escape c ++ json_escape r
        | [] => unicode_escape c
        end
      else if is_low c then unicode_escape c ++ json_escape r
      else c :: json_escape r
  end.

(** [JSON.stringify(s)] for a string [s]. *)
Definition json_quote (s : jsstring) : jsstring :=
  quote ++ json_escape s ++ quote.

(** Code points of a string; a surrogate outside a pair decodes to
    U+FFFD, as [TextEncoder] does. *)
Fixpoint code_points (s : jsstring) : list N :=
  match s with
  | [] => []
  | c :: r =>
      if is_high c then
        match r with
        | d :: r' =>
            if is_low d
            then (65536 + (c - 55296) * 1024 + (d - 56320))%N :: code_points r'
            else 65533%N :: code_points r
        | [] => [65533%N]
        end
      else if is_low c then 65533%N :: code_points r
      else c :: code_points r
  end.

Definition utf8 (cp : N) : list N :=
  (if cp <? 128 then [cp]
   else if cp <? 2048 then [192 + cp / 64; 128 + cp mod 64]
   else if cp <? 65536 then
     [224 + cp / 4096; 128 + cp / 64 mod 64; 128 + cp mod 64]
   else [240 + cp / 262144; 128 + cp / 4096 mod 64;
         128 + cp / 64 mod 64; 128 + cp mod 64])%N.

End JsString.

Import JsString.
Arguments lit s%_string.

(** [new TextEncoder().encode(s)]: the UTF-8 bytes of the string. *)
Definition TextEncoder_encode (s : jsstring) : list N :=
  flat_map utf8 (code_points s).

(* ================================================================== *)
(** ** JavaScript values *)
(* ================================================================== *)

(** The plain data the handlers see: what an upstream event, a JSON body
    or a property of one can hold.  [JNum z] is the integral Number [z]
    for a safe integer [z] (below 2^53 in absolute value), which prints
    in decimal; other Numbers are outside the model.  The fields of an
    object are listed in property enumeration order and have distinct
    keys. *)
Inductive JsValue : Type :=
| JUndefined
| JNull
| JBool (b : bool)
| JNum (z : Z)
| JStr (s : jsstring)
| JArr (items : list JsValue)
| JObj (fields : list (jsstring * JsValue)).

(** ToBoolean, as [if (v)], [!v], [a && b] and [a || b] test a value. *)
Definition truthy (v : JsValue) : bool :=
  match v with
  | JUndefined | JNull => false
  | JBool b => b
  | JNum z => negb (Z.eqb z 0)
  | JStr s => match s with [] => false | _ :: _ => true end
  | JArr _ | JObj _ => true
  end.

Fixpoint lookup (key : jsstring) (fields : list (jsstring * JsValue))
  : option JsValue :=
  match fields with
  | [] => None
  | (k, v) :: rest => if eqb k key then Some v else lookup key rest
  end.

(** The element whose index prints as [key], counting from [i]. *)
Fixpoint at_index {A} (key : jsstring) (i : N) (items : list A) : option A :=
  match items with
  | [] => None
  | x :: rest =>
      if eqb key (of_N i) then Some x else at_index key (N.succ i) rest
  end.

(** [v[key]] and [v.key] on a value that is neither [null] nor
    [undefined] (the handlers guard every access by a truthiness test). *)
Definition js_get (v : JsValue) (key : jsstring) : JsValue :=
  match v with
  | JObj fields =>
      match lookup key fields with Some x => x | None => JUndefined end
  | JArr items =>
      if eqb key (lit "length") then JNum (Z.of_nat (List.length items))
      else match at_index key 0 items with
           | Some x => x
           | None => JUndefined
           end
  | JStr s =>
      if eqb key (lit "length") then JNum (Z.of_nat (List.length s))
      else match at_index key 0 s with
           | Some c => JStr [c]
           | None => JUndefined
           end
  | _ => JUndefined
  end.

(** The decimal indices [i], [i+1], ... of the elements of a list. *)
Fixpoint indices {A} (i : N) (items : list A) : list jsstring :=
  match items with
  | [] => []
  | _ :: rest => of_N i :: indices (N.succ i) rest
  end.

(** [Object.keys(v)]; [None] is the TypeError raised on [null] and
    [undefined]. *)
Definition Object_keys (v : JsValue) : option (list jsstring) :=
  match v with
  | JUndefined | JNull => None
  | JObj fields => Some (map fst fields)
  | JArr items => Some (indices 0 items)
  | JStr s => Some (indices 0 s)
  | JBool _ | JNum _ => Some []
  end.

(** [JSON.stringify(v)]; [None] is the result [undefined].  A property
    holding [undefined] is left out of an object and printed as [null] in
    an array. *)
Fixpoint JSON_stringify (v : JsValue) : option jsstring :=
  match v with
  | JUndefined => None
  | JNull => Some (lit "null")
  | JBool true => Some (lit "true")
  | JBool false => Some (lit "false")
  | JNum z => Some (of_Z z)
  | JStr s => Some (json_quote s)
  | JArr items =>
      Some (lit "[" ++
            join (lit ",")
              (map (fun x => match JSON_stringify x with
                             | Some t => t
                             | None => lit "null"
                             end) items) ++
            lit "]")
  | JObj fields =>
      Some (lit "{" ++
            join (lit ",")
              ((fix members (fs : list (jsstring * JsValue)) :=
                  match fs with
                  | [] => []
                  | (k, x) :: rest =>
                      match JSON_stringify x with
                      | Some t => (json_quote k ++ lit ":" ++ t) :: members rest
                      | None => members rest
                      end
                  end) fields) ++
            lit "}")
  end.

(** [JSON.stringify(v)] as the value an assignment stores. *)
Definition stringify_value (v : JsValue) : JsValue :=
  match JSON_stringify v with
  | Some s => JStr s
  | None => JUndefined
  end.

(** [`${JSON.stringify(v)}`] inside a template literal. *)
Definition stringify_text (v : JsValue) : jsstring :=
  match JSON_stringify v with
  | Some s => s
  | None => lit "undefined"
  end.

(** What a [catch] clause can receive: an [Error] instance with its
    [message], or any other value. *)
Inductive Thrown : Type :=
| ThrownError (message : jsstring)
| ThrownValue (v : JsValue).

(* ================================================================== *)
(** ** Content clean-up (route.ts 198-209) *)
(* ================================================================== *)

Definition fence : jsstring := lit "```".
Definition fence_newline : jsstring := fence ++ newline.
Definition fence_json_newline : jsstring := fence ++ lit "json" ++ newline.

(** [s.replace(/```(json)?\n/g, "")]: scanning from the left, every
    match of the pattern is dropped and the scan resumes after it.
    [skip] counts the code units of the current match still to drop. *)
Fixpoint remove_opening_fences (skip : nat) (s : jsstring) : jsstring :=
  match s with
  | [] => []
  | c :: r =>
      match skip with
      | S k => remove_opening_fences k r
      | O =>
          if startsWith s fence_json_newline then remove_opening_fences 7 r
          else if startsWith s fence_newline then remove_opening_fences 3 r
          else c :: remove_opening_fences 0 r
      end
  end.

(** [s.replace(/```$/g, "")]: without the [m] flag [$] is the end of the
    input, so at most the last three code units go. *)
Definition remove_closing_fence (s : jsstring) : jsstring :=
  if endsWith s fence then firstn (List.length s - 3) s else s.

Definition clean (content : jsstring) : jsstring :=
  remove_closing_fence (remove_opening_fences 0 content).

(** [cleanContent.trim().startsWith("{") || cleanContent.trim().startsWith("[")] *)
Definition isJsonContent (cleanContent : jsstring) : bool :=
  startsWith (trim cleanContent) (lit "{")
  || startsWith (trim cleanContent) (lit "[").

(* ================================================================== *)
(** ** The platform *)
(* ================================================================== *)

(** Where the runtime itself raises a TypeError. *)
Inductive TypeErrorSite : Type :=
| KeysOfNullish      (* Object.keys(event) on null or undefined *)
| ReplaceNotCallable (* cleanContent.replace on a value that is no string *)
| MessageOfNull      (* error.message on null *)
| MessageOfUndefined. (* error.message on undefined *)

(** Node's [fs] and [path] modules, [process.cwd()] and the wording of
    the engine's TypeErrors.  A file-system operation that throws leaves
    the file system as it was. *)
Class Platform : Type := {
  FS : Type;
  process_cwd : jsstring;
  path_join : jsstring -> jsstring -> jsstring;
  path_extname : jsstring -> jsstring;
  fs_existsSync : FS -> jsstring -> bool;
  fs_mkdirSync : FS -> jsstring -> Thrown + FS;
  fs_writeFileSync : FS -> jsstring -> list N -> Thrown + FS;
  fs_unlinkSync : FS -> jsstring -> Thrown + FS;
  type_error_message : TypeErrorSite -> jsstring
}.

Definition TypeError `{Platform} (site : TypeErrorSite) : Thrown :=
  ThrownError (type_error_message site).

(** [path.join(process.cwd(), "temp")] *)
Definition tempDir `{Platform} : jsstring := path_join process_cwd (lit "temp").

(** The writable side of the [TransformStream]: the chunks written so
    far, oldest first, and whether it has been closed. *)
Record Writer : Type := { chunks : list (list N); closed : bool }.

(** What a handler hands back: [NextResponse.json(body, { status })], a
    streaming [Response] (status 200) whose body is what the background
    task wrote, or an exception that escapes the handler. *)
Inductive Response : Type :=
| JsonResponse (status : N) (body : JsValue)
| StreamResponse (headers : list (jsstring * jsstring)) (body : Writer)
| Unhandled (e : Thrown).

(** [error.message || fallback] in a [catch (error: any)] clause. *)
Definition message_or `{Platform} (e : Thrown) (fallback : jsstring)
  : Thrown + JsValue :=
  match e with
  | ThrownError m => inr (if truthy (JStr m) then JStr m else JStr fallback)
  | ThrownValue JNull => inl (TypeError MessageOfNull)
  | ThrownValue JUndefined => inl (TypeError MessageOfUndefined)
  | ThrownValue v =>
      inr (if truthy (js_get v (lit "message")) then js_get v (lit "message")
           else JStr fallback)
  end.

(** The [catch] clause shared by both handlers: status 500 with the
    error's message. *)
Definition internal_error `{Platform} (e : Thrown) (fallback : jsstring)
  : Response :=
  match message_or e fallback with
  | inr m => JsonResponse 500 (JObj [(lit "message", m)])
  | inl e' => Unhandled e'
  end.

(* ================================================================== *)
(** ** POST: staging uploaded files (route.ts 8-58) *)
(* ================================================================== *)

(** A form entry's value: a string or a [File]. *)
Inductive FormValue : Type :=
| FormString (s : jsstring)
| FormFile (name : jsstring) (bytes : list N).

Section Upload.
Context `{Platform}.

(** [Date.now()]: the epoch milliseconds read by the [k]-th call made
    while the request is handled. *)
Variable Date_now : nat -> N.

(** [`${timestamp}${ext}`] *)
Definition generated_filename (timestamp : N) (ext : jsstring) : jsstring :=
  of_N timestamp ++ ext.

(** Lines 18-35, for one [File]: make sure the scratch directory is
    there, name the file, write it.  The file system reached comes back
    also when a step throws. *)
Definition store (fs : FS) (tick : nat) (name : jsstring) (bytes : list N)
  : FS * (Thrown + jsstring) :=
  let made :=
    if negb (fs_existsSync fs tempDir) then fs_mkdirSync fs tempDir
    else inr fs in
  match made with
  | inl e => (fs, inl e)
  | inr fs1 =>
      let timestamp := Date_now tick in
      let ext := path_extname name in
      let filename := generated_filename timestamp ext in
      let filePath := path_join tempDir filename in
      match fs_writeFileSync fs1 filePath bytes with
      | inl e => (fs1, inl e)
      | inr fs2 => (fs2, inr filename)
      end
  end.

(** [value instanceof File] *)
Definition as_file (value : FormValue) : option (jsstring * list N) :=
  match value with
  | FormFile name bytes => Some (name, bytes)
  | FormString _ => None
  end.

(** The loop over [formData.entries()]; [uploadedFiles] grows at its
    end. *)
Fixpoint store_entries (entries : list (jsstring * FormValue)) (fs : FS)
    (tick : nat) (uploadedFiles : list jsstring)
  : FS * (Thrown + list jsstring) :=
  match entries with
  | [] => (fs, inr uploadedFiles)
  | (key, value) :: rest =>
      match (if startsWith key (lit "file-") then as_file value else None) with
      | Some (name, bytes) =>
          match store fs tick name bytes with
          | (fs', inl e) => (fs', inl e)
          | (fs', inr filename) =>
              store_entries rest fs' (S tick) (uploadedFiles ++ [filename])
          end
      | None => store_entries rest fs tick uploadedFiles
      end
  end.

(** The handler; [formData] is the outcome of [await req.formData()]. *)
Definition POST (formData : Thrown + list (jsstring * FormValue)) (fs : FS)
  : Response * FS :=
  match formData with
  | inl e => (internal_error e (lit "Failed to process request"), fs)
  | inr entries =>
      match store_entries entries fs 0 [] with
      | (fs', inr uploadedFiles) =>
          (JsonResponse 200
             (JObj [(lit "message", JStr (lit "success"));
                    (lit "uploadedFiles", JArr (map JStr uploadedFiles))]),
           fs')
      | (fs', inl e) =>
          (internal_error e (lit "Failed to process request"), fs')
      end
  end.

End Upload.

(* ================================================================== *)
(** ** GET: the event relay (route.ts 155-271) *)
(* ================================================================== *)

(** How a lazily consumed sequence stops: it is exhausted, or asking for
    the next event raises. *)
Inductive Ending : Type :=
| Ends
| Raises (e : Thrown).

(** [result.stream], observed up to where it stops. *)
Record Upstream : Type := { events : list JsValue; ending : Ending }.

(** How the body of the loop is left. *)
Inductive Completion : Type :=
| Normal
| Return
| Throw (e : Thrown).

Definition open_writer : Writer := {| chunks := []; closed := false |}.

(** [await writer.write(chunk)] *)
Definition write (chunk : list N) (w : Writer) : Writer :=
  {| chunks := chunks w ++ [chunk]; closed := closed w |}.

(** [await writer.close()] *)
Definition close (w : Writer) : Writer :=
  {| chunks := chunks w; closed := true |}.

Definition busy_message : jsstring :=
  lit "server is busy currently try again later".

(** ["event: complete\ndata: done\n\n"] *)
Definition completion_marker : jsstring :=
  lit "event: complete" ++ newline ++ lit "data: done" ++ newline ++ newline.

(** [`data: ${JSON.stringify({ type: "error", content })}\n\n`] *)
Definition error_chunk (content : jsstring) : jsstring :=
  lit "data: " ++
  stringify_text (JObj [(lit "type", JStr (lit "error"));
                        (lit "content", JStr content)]) ++
  newline ++ newline.

(** [`data: ${JSON.stringify({ type: "markdown", content, isMarkdown: true })}\n\n`] *)
Definition markdown_chunk (content : jsstring) : jsstring :=
  lit "data: " ++
  stringify_text (JObj [(lit "type", JStr (lit "markdown"));
                        (lit "content", JStr content);
                        (lit "isMarkdown", JBool true)]) ++
  newline ++ newline.

(** [`event: error\ndata: ${JSON.stringify({ error: errorMessage })}\n\n`] *)
Definition error_event (errorMessage : jsstring) : jsstring :=
  lit "event: error" ++ newline ++ lit "data: " ++
  stringify_text (JObj [(lit "error", JStr errorMessage)]) ++
  newline ++ newline.

(** [error instanceof Error ? error.message : "An unknown error occurred"] *)
Definition errorMessage_of (error : Thrown) : jsstring :=
  match error with
  | ThrownError message => message
  | ThrownValue _ => lit "An unknown error occurred"
  end.

(** Lines 169-196.  On plain data neither the guards nor
    [JSON.stringify] can throw, so the inner [catch] is never entered. *)
Definition extract_content (event : JsValue) (agentType : jsstring) : JsValue :=
  let agent := js_get event agentType in
  if truthy agent
     && truthy (js_get agent (lit "messages"))
     && truthy (js_get (js_get agent (lit "messages")) (lit "0"))
     && truthy (js_get (js_get (js_get agent (lit "messages")) (lit "0"))
                       (lit "content"))
  then
    if truthy (js_get agent (lit "analysisResult"))
    then js_get agent (lit "analysisResult")
    else js_get (js_get (js_get agent (lit "messages")) (lit "0")) (lit "content")
  else stringify_value event.

Section Relay.
Context `{Platform}.

(** The body of the [for await] loop, for one event. *)
Definition process_event (event : JsValue) (w : Writer) : Writer * Completion :=
  match Object_keys event with
  | None => (w, Throw (TypeError KeysOfNullish))
  | Some keys =>
      match hd_error keys with
      | None => (w, Normal)
      | Some agentType =>
          if negb (eqb agentType (lit "Formatter")) then (w, Normal)
          else
            match extract_content event agentType with
            | JStr content =>
                let cleanContent := clean content in
                if isJsonContent cleanContent then
                  let w1 := write (TextEncoder_encode (error_chunk busy_message)) w in
                  let w2 := write (TextEncoder_encode completion_marker) w1 in
                  (close w2, Return)
                else
                  (write (TextEncoder_encode (markdown_chunk cleanContent)) w,
                   Normal)
            | _ => (w, Throw (TypeError ReplaceNotCallable))
            end
      end
  end.

(** The loop: the writer it leaves, how it was left, and the events it
    never asked for. *)
Fixpoint for_await (evs : list JsValue) (stop : Ending) (w : Writer)
  : Writer * Completion * list JsValue :=
  match evs with
  | [] =>
      match stop with
      | Ends => (w, Normal, [])
      | Raises e => (w, Throw e, [])
      end
  | event :: rest =>
      match process_event event w with
      | (w', Normal) => for_await rest stop w'
      | (w', c) => (w', c, rest)
      end
  end.

(** The background task: the loop inside its [try], the completion
    signal after it, the [catch] clause. *)
Definition relay_from (up : Upstream) (w : Writer) : Writer * list JsValue :=
  match for_await (events up) (ending up) w with
  | (w', Normal, unread) =>
      (close (write (TextEncoder_encode completion_marker) w'), unread)
  | (w', Return, unread) => (w', unread)
  | (w', Throw error, unread) =>
      (close (write (TextEncoder_encode (error_event (errorMessage_of error))) w'),
       unread)
  end.

Definition relay (up : Upstream) : Writer := fst (relay_from up open_writer).

End Relay.

(* ================================================================== *)
(** ** GET: validation and the call to the service (route.ts 60-295) *)
(* ================================================================== *)

(** The argument of [generateQuestions]. *)
Record GenerationRequest : Type := {
  questionHeader : jsstring;
  questionDescription : jsstring;
  apiKey : jsstring;
  uploadedFiles : list jsstring;
  modelName : jsstring
}.

(** What [generateQuestions] resolves to; [stream] may be missing. *)
Record GenerationResult : Type := { stream : option Upstream }.

(** [url.searchParams.get(name)]: the first value given for the name,
    [None] for [null]. *)
Fixpoint searchParams_get (params : list (jsstring * jsstring))
    (name : jsstring) : option jsstring :=
  match params with
  | [] => None
  | (k, v) :: rest => if eqb k name then Some v else searchParams_get rest name
  end.

Definition param_value (p : option jsstring) : JsValue :=
  match p with
  | Some s => JStr s
  | None => JNull
  end.

(** [!!p] for a query parameter. *)
Definition provided (p : option jsstring) : bool := truthy (param_value p).

(** The string a parameter holds once the guard has ruled out [null]. *)
Definition narrowed (p : option jsstring) : jsstring :=
  match p with
  | Some s => s
  | None => []
  end.

Definition default_model : jsstring := lit "qwen/qwq-32b:free".

Definition mandatory : list jsstring :=
  [lit "questionHeader"; lit "questionDescription"; lit "apiKey"].

(** The body of the 400 response of lines 71-84. *)
Definition missing_parameters_body (header description key : option jsstring)
    (model : jsstring) : JsValue :=
  JObj [(lit "message",
         JStr (lit "Missing required parameters. Please provide questionHeader, questionDescription, and apiKey."));
        (lit "required", JArr (map JStr mandatory));
        (lit "received",
         JObj [(lit "questionHeader", JBool (provided header));
               (lit "questionDescription", JBool (provided description));
               (lit "apiKey", JBool (provided key));
               (lit "modelName", JBool (truthy (JStr model)))])].

(** Lines 88-93. *)
Definition parse_uploadedFiles (uploadedFilesParam : option jsstring)
  : list jsstring :=
  if provided uploadedFilesParam then
    filter (fun file => negb (eqb (trim file) []))
           (split 44 (narrowed uploadedFilesParam))
  else [].

Definition files_not_found_body : JsValue :=
  JObj [(lit "message",
         JStr (lit "Uploaded files not found on server. Please try uploading again."))].

Definition sse_headers : list (jsstring * jsstring) :=
  [(lit "Content-Type", lit "text/event-stream");
   (lit "Cache-Control", lit "no-cache");
   (lit "Connection", lit "keep-alive")].

Section Generate.
Context `{Platform}.

(** The generation service of [@/services/index]; it reads the staged
    files, and its call resolves or rejects. *)
Variable generateQuestions : GenerationRequest -> FS -> Thrown + GenerationResult.

(** Lines 103-105. *)
Definition existing_files (fs : FS) (files : list jsstring) : list jsstring :=
  filter (fun file => fs_existsSync fs (path_join tempDir file)) files.

(** Lines 134-146: best-effort removal, a failed [unlinkSync] is only
    logged. *)
Fixpoint delete_processed (files : list jsstring) (fs : FS) : FS :=
  match files with
  | [] => fs
  | file :: rest =>
      let filePath := path_join tempDir file in
      let fs' :=
        if fs_existsSync fs filePath then
          match fs_unlinkSync fs filePath with
          | inr fs1 => fs1
          | inl _ => fs
          end
        else fs in
      delete_processed rest fs'
  end.

(** Lines 125-286: the call, the clean-up and the response. *)
Definition GET_generate (request : GenerationRequest) (fs : FS)
  : Response * FS :=
  match generateQuestions request fs with
  | inl e => (internal_error e (lit "Failed to generate questions"), fs)
  | inr result =>
      let fs' := delete_processed (uploadedFiles request) fs in
      match stream result with
      | Some up => (StreamResponse sse_headers (relay up), fs')
      | None =>
          (JsonResponse 500
             (JObj [(lit "message",
                     JStr (lit "No stream returned from generation service"))]),
           fs')
      end
  end.

(** Lines 62-123: either the response that ends the request early, or
    the request handed to the service. *)
Definition GET_validate (searchParams : list (jsstring * jsstring)) (fs : FS)
  : Response + GenerationRequest :=
  let header := searchParams_get searchParams (lit "questionHeader") in
  let description := searchParams_get searchParams (lit "questionDescription") in
  let key := searchParams_get searchParams (lit "apiKey") in
  let model :=
    if provided (searchParams_get searchParams (lit "modelName"))
    then narrowed (searchParams_get searchParams (lit "modelName"))
    else default_model in
  let uploadedFilesParam := searchParams_get searchParams (lit "uploadedFiles") in
  if negb (provided header) || negb (provided description)
     || negb (provided key)
  then inl (JsonResponse 400
              (missing_parameters_body header description key model))
  else
    let declared := parse_uploadedFiles uploadedFilesParam in
    let request files :=
      {| questionHeader := narrowed header;
         questionDescription := narrowed description;
         apiKey := narrowed key;
         uploadedFiles := files;
         modelName := model |} in
    if (List.length declared =? 0)%nat then inr (request declared)
    else
      let existingFiles := existing_files fs declared in
      if ((List.length existingFiles =? 0)%nat
          && (0 <? List.length declared)%nat)%bool
      then inl (JsonResponse 400 files_not_found_body)
      else inr (request existingFiles).

(** The handler. *)
Definition GET (searchParams : list (jsstring * jsstring)) (fs : FS)
  : Response * FS :=
  match GET_validate searchParams fs with
  | inl response => (response, fs)
  | inr request => GET_generate request fs
  end.

End Generate.

(* ================================================================== *)
(** ** A sample platform *)
(* ================================================================== *)

(** A platform on which the handlers can be run: the file system is the
    list of the paths that exist, every operation succeeds, and [join]
    and [extname] are those of Node's [path.posix]. *)
Module Sample.

Fixpoint drop_leading (c : N) (s : jsstring) : jsstring :=
  match s with
  | [] => []
  | x :: r => if N.eqb x c then drop_leading c r else s
  end.

(** [path.posix.extname]: trailing slashes do not count, the extension
    is what follows the last dot of the last segment, the dot included,
    and there is none when that dot begins the segment or the segment is
    [..]. *)
Definition extname (name : jsstring) : jsstring :=
  let base := last (split 47 (rev (drop_leading 47 (rev name)))) [] in
  match rev (split 46 base) with
  | [] | [_] => []
  | ext :: before =>
      if eqb base (lit "..") then []
      else if eqb (join [46%N] (rev before)) [] then []
      else 46%N :: ext
  end.

(** The segments of a path without the empty and [.] ones, each [..]
    taking back the segment before it; [above] tells whether a [..]
    that has nothing to take back is kept.  [acc] is in reverse. *)
Fixpoint normalize_segments (above : bool) (segs acc : list jsstring)
  : list jsstring :=
  match segs with
  | [] => rev acc
  | seg :: rest =>
      if eqb seg [] || eqb seg (lit ".") then normalize_segments above rest acc
      else if eqb seg (lit "..") then
        match acc with
        | previous :: acc' =>
            if eqb previous (lit "..")
            then normalize_segments above rest (seg :: acc)
            else normalize_segments above rest acc'
        | [] =>
            if above then normalize_segments above rest [seg]
            else normalize_segments above rest []
        end
      else normalize_segments above rest (seg :: acc)
  end.

(** [path.posix.normalize] *)
Definition normalize (p : jsstring) : jsstring :=
  match p with
  | [] => lit "."
  | c :: _ =>
      let absolute := N.eqb c 47 in
      let trailing := endsWith p (lit "/") in
      let body :=
        join [47%N] (normalize_segments (negb absolute) (split 47 p) []) in
      match body with
      | [] => if absolute then lit "/" else if trailing then lit "./" else lit "."
      | _ :: _ =>
          (if absolute then lit "/" else []) ++ body ++
          (if trailing then lit "/" else [])
      end
  end.

(** [path.posix.join(a, b)]: the arguments that are not empty, joined
    by a slash, normalized. *)
Definition join_paths (a b : jsstring) : jsstring :=
  match a, b with
  | [], [] => lit "."
  | [], _ => normalize b
  | _, [] => normalize a
  | _, _ => normalize (a ++ lit "/" ++ b)
  end.

Definition engine_message (site : TypeErrorSite) : jsstring :=
  match site with
  | KeysOfNullish => lit "Cannot convert undefined or null to object"
  | ReplaceNotCallable => lit "cleanContent.replace is not a function"
  | MessageOfNull => lit "Cannot read properties of null (reading 'message')"
  | MessageOfUndefined =>
      lit "Cannot read properties of undefined (reading 'message')"
  end.

#[export] Instance platform : Platform := {|
  FS := list jsstring;
  process_cwd := lit "/app";
  path_join := join_paths;
  path_extname := extname;
  fs_existsSync := fun fs p => existsb (eqb p) fs;
  fs_mkdirSync := fun fs p => inr (p :: fs);
  fs_writeFileSync := fun fs p _ => inr (p :: fs);
  fs_unlinkSync := fun fs p => inr (filter (fun q => negb (eqb p q)) fs);
  type_error_message := engine_message
|}.

(** An event [{ Formatter: { messages: [{ content }] } }]. *)
Definition formatter_event (content : JsValue) : JsValue :=
  JObj [(lit "Formatter",
         JObj [(lit "messages", JArr [JObj [(lit "content", content)]])])].

(** An event of another agent. *)
Definition planner_event : JsValue :=
  JObj [(lit "Planner",
         JObj [(lit "messages", JArr [JObj [(lit "content", JStr (lit "plan"))]])])].

(** The fenced JSON text [```json\n{"x":1}\n```]. *)
Definition fenced_json : jsstring :=
  lit "```json" ++ newline ++ lit "{" ++ quote ++ lit "x" ++ quote ++
  lit ":1}" ++ newline ++ lit "```".

(** A service that streams two questions. *)
Definition two_questions (_ : GenerationRequest) (_ : list jsstring)
  : Thrown + GenerationResult :=
  inr {| stream := Some {| events := [formatter_event (JStr (lit "Q1"));
                                      formatter_event (JStr (lit "Q2"))];
                           ending := Ends |} |}.

(** The clock of the sample uploads, and a form with two files. *)
Definition clock (k : nat) : N := (1700000000000 + N.of_nat k)%N.

Definition upload : list (jsstring * FormValue) :=
  [(lit "file-0", FormFile (lit "notes.pdf") [37; 80; 68; 70]%N);
   (lit "comment", FormString (lit "hello"));
   (lit "file-1", FormFile (lit "syllabus.final.txt") [104; 105]%N)].

(** What the upload of that form answers. *)
Definition upload_body : JsValue :=
  JObj [(lit "message", JStr (lit "success"));
        (lit "uploadedFiles",
         JArr [JStr (lit "1700000000000.pdf");
               JStr (lit "1700000000001.txt")])].

(** A query with a header and a description, an empty key. *)
Definition keyless : list (jsstring * jsstring) :=
  [(lit "questionDescription", lit "Chapter 3");
   (lit "apiKey", []);
   (lit "modelName", lit "m")].

(** A complete query that declares two files, one with white space
    around its name, and a blank segment. *)
Definition with_files : list (jsstring * jsstring) :=
  [(lit "questionHeader", lit "Exam");
   (lit "questionDescription", lit "Chapter 3");
   (lit "apiKey", lit "k");
   (lit "uploadedFiles", lit " a.txt ,  ,b.txt")].

(** The same query without the declared files. *)
Definition plain_query : list (jsstring * jsstring) :=
  [(lit "questionHeader", lit "Exam");
   (lit "questionDescription", lit "Chapter 3");
   (lit "apiKey", lit "k")].

(** A scratch directory that holds the first of them. *)
Definition scratch : list jsstring := [lit "/app/temp/ a.txt "; lit "/app/temp"].

(** Streams for the relay: two questions around the event of another
    agent; a fenced JSON answer in the middle of a stream that would
    raise later; a stream that raises after one question, and one that
    raises at once. *)
Definition questions_stream : Upstream :=
  {| events := [formatter_event (JStr (lit "Q1")); planner_event;
                formatter_event (JStr (lit "Q2"))];
     ending := Ends |}.

Definition before_json : list JsValue :=
  [planner_event; formatter_event (JStr (lit "Q1"))].

Definition after_json : list JsValue :=
  [formatter_event (JStr (lit "Q2")); JNull].

Definition json_stream : Upstream :=
  {| events := before_json ++ formatter_event (JStr fenced_json) :: after_json;
     ending := Raises (ThrownError (lit "late")) |}.




Definition result_only_event : JsValue :=
  JObj [(lit "Formatter", JObj [(lit "analysisResult", JStr (lit "R"))])].

(** The query [keyless] with a header added. *)
Definition empty_key : list (jsstring * jsstring) :=
  (lit "questionHeader", lit "Exam") :: keyless.

(** A file beside the scratch directory, which is not there, and a
    complete query that declares it by a relative name. *)
Definition victim_disk : list jsstring := [lit "/app/victim.txt"].

Definition traversal_query : list (jsstring * jsstring) :=
  [(lit "questionHeader", lit "Exam");
   (lit "questionDescription", lit "Chapter 3");
   (lit "apiKey", lit "k");
   (lit "uploadedFiles", lit "../victim.txt")].

(** A [Formatter] event whose message content is the empty string, and
    one whose content is a fenced text. *)
Definition empty_stream : Upstream :=
  {| events := [formatter_event (JStr [])]; ending := Ends |}.

Definition fenced_stream : Upstream :=
  {| events := [formatter_event (JStr (lit "Q1")); planner_event;
                formatter_event (JStr (fence ++ newline ++ lit "# Q2" ++ fence))];
     ending := Ends |}.

(** A platform like the sample one on which one file of the scratch
    directory cannot be removed. *)
Definition locked_path : jsstring := lit "/app/temp/locked.txt".

Definition guarded : Platform := {|
  FS := list jsstring;
  process_cwd := lit "/app";
  path_join := join_paths;
  path_extname := extname;
  fs_existsSync := fun fs p => existsb (eqb p) fs;
  fs_mkdirSync := fun fs p => inr (p :: fs);
  fs_writeFileSync := fun fs p _ => inr (p :: fs);
  fs_unlinkSync := fun fs p =>
    if eqb p locked_path then inl (ThrownError (lit "EPERM"))
    else inr (filter (fun q => negb (eqb p q)) fs);
  type_error_message := engine_message
|}.

Definition guarded_scratch : list jsstring :=
  [locked_path; lit "/app/temp/a.txt"; lit "/app/temp/other.txt";
   lit "/app/temp"].

Definition processed : list jsstring := [lit "locked.txt"; lit "a.txt"].

(** A platform like the sample one whose disk is full once it holds two
    entries. *)
Definition full_disk : Platform := {|
  FS := list jsstring;
  process_cwd := lit "/app";
  path_join := join_paths;
  path_extname := extname;
  fs_existsSync := fun fs p => existsb (eqb p) fs;
  fs_mkdirSync := fun fs p => inr (p :: fs);
  fs_writeFileSync := fun fs p _ =>
    if (2 <=? List.length fs)%nat then inl (ThrownError (lit "ENOSPC"))
    else inr (p :: fs);
  fs_unlinkSync := fun fs p => inr (filter (fun q => negb (eqb p q)) fs);
  type_error_message := engine_message
|}.

(** A service whose call is rejected. *)
Definition rejecting (_ : GenerationRequest) (_ : list jsstring)
  : Thrown + GenerationResult :=
  inl (ThrownError (lit "quota exceeded")).

(** A form that has nothing to stage. *)
Definition no_files : list (jsstring * FormValue) :=
  [(lit "comment", FormString (lit "hello"));
   (lit "photo", FormFile (lit "me.png") [1; 2]%N)].

End Sample.

(* ================================================================== *)
(** ** Vocabulary of the properties *)
(* ================================================================== *)

(** A string of white space only. *)
Definition blank (s : jsstring) : bool := forallb is_space s.

(** The string begins, after white space, with an opening brace or an
    opening bracket. *)
Definition json_shaped (s : jsstring) : Prop :=
  exists ws c rest,
    s = ws ++ c :: rest /\ blank ws = true /\ (c = 123%N \/ c = 91%N).

Definition Formatter : jsstring := lit "Formatter".

(** What the relay forwards for an event: nothing for an event of
    another agent, the cleaned text for a [Formatter] event whose content
    is a string that is not JSON-shaped. *)
Inductive relays : JsValue -> option jsstring -> Prop :=
| relays_dropped event keys :
    Object_keys event = Some keys ->
    hd_error keys <> Some Formatter ->
    relays event None
| relays_markdown event keys content :
    Object_keys event = Some (Formatter :: keys) ->
    extract_content event Formatter = JStr content ->
    ~ json_shaped (clean content) ->
    relays event (Some (clean content)).

(** The guard of line 173: the event has the standard messages
    structure, with a first message whose content is truthy. *)
Definition has_message_content (event : JsValue) : bool :=
  let agent := js_get event Formatter in
  truthy agent
  && truthy (js_get agent (lit "messages"))
  && truthy (js_get (js_get agent (lit "messages")) (lit "0"))
  && truthy (js_get (js_get (js_get agent (lit "messages")) (lit "0"))
                    (lit "content")).

(** The three mandatory parameters of a query. *)
Definition header_of (sp : list (jsstring * jsstring)) : option jsstring :=
  searchParams_get sp (lit "questionHeader").
Definition description_of (sp : list (jsstring * jsstring)) : option jsstring :=
  searchParams_get sp (lit "questionDescription").
Definition key_of (sp : list (jsstring * jsstring)) : option jsstring :=
  searchParams_get sp (lit "apiKey").

(** The mandatory parameters a 400 body reports as not received. *)
Definition not_received (body : JsValue) : list jsstring :=
  filter (fun name =>
            match js_get (js_get body (lit "received")) name with
            | JBool false => true
            | _ => false
            end) mandatory.

(** The query without any value for [name]. *)
Definition remove_param (name : jsstring) (params : list (jsstring * jsstring))
  : list (jsstring * jsstring) :=
  filter (fun kv => negb (eqb (fst kv) name)) params.

(** What is left of a string after its leading decimal digits. *)
Fixpoint after_digits (t : jsstring) : jsstring :=
  match t with
  | d :: t' => if is_digit d then after_digits t' else t
  | [] => []
  end.

(** [/^\d+\.pdf$/.test(s)] *)
Definition matches_digits_pdf (s : jsstring) : bool :=
  match s with
  | c :: _ => is_digit c
  | [] => false
  end
  && eqb (after_digits s) (lit ".pdf").

(** The texts forwarded, in order. *)
Fixpoint forwarded (outs : list (option jsstring)) : list jsstring :=
  match outs with
  | [] => []
  | Some text :: rest => text :: forwarded rest
  | None :: rest => forwarded rest
  end.

(** The names the upload loop is to give the [File] entries under a
    [file-] key, the [k]-th of them stamped by the [k]-th clock reading. *)
Fixpoint expected_names `{Platform} (Date_now : nat -> N)
    (entries : list (jsstring * FormValue)) (tick : nat) : list jsstring :=
  match entries with
  | [] => []
  | (key, value) :: rest =>
      match (if startsWith key (lit "file-") then as_file value else None) with
      | Some (name, _) =>
          (of_N (Date_now tick) ++ path_extname name)
            :: expected_names Date_now rest (S tick)
      | None => expected_names Date_now rest tick
      end
  end.

(** Text as it goes over the wire, written with an apostrophe where
    the text has a double quote and a bar where it has a line feed. *)
Definition wire (s : string) : list N :=
  map (fun a =>
         let c := N_of_ascii a in
         if (c =? 39)%N then 34%N else if (c =? 124)%N then 10%N else c)
      (list_ascii_of_string s).
Arguments wire s%_string.

(** The frames, written out as the spec gives them: the completion
    marker; the [data:] line with the JSON object of the busy error or of
    a markdown message, whose content is the text as a JSON string; the
    [event: error] frame of a failure.  Each ends with a blank line. *)
Definition completion_frame : list N := wire "event: complete|data: done||".

Definition busy_frame : list N :=
  wire "data: {'type':'error','content':'server is busy currently try again later'}||".

Definition markdown_frame (text : jsstring) : list N :=
  TextEncoder_encode
    (wire "data: {'type':'markdown','content':" ++ json_quote text ++
     wire ",'isMarkdown':true}||").


(** The headers of the event stream. *)
Definition event_stream_headers : list (jsstring * jsstring) :=
  [(wire "Content-Type", wire "text/event-stream");
   (wire "Cache-Control", wire "no-cache");
   (wire "Connection", wire "keep-alive")].



(** The ways the chunks of a relayed stream can end: the completion
    marker after the events, the busy message and the marker, or the
    frame of the [catch] clause. *)
Inductive stream_end : list (list N) -> Prop :=
| end_completed :
    stream_end [TextEncoder_encode completion_marker]
| end_busy :
    stream_end [TextEncoder_encode (error_chunk busy_message);
                TextEncoder_encode completion_marker]
| end_failed (error : Thrown) :
    stream_end [TextEncoder_encode (error_event (errorMessage_of error))].

(** What the handlers rely on from [fs.unlinkSync] and [fs.existsSync]:
    a removed path is gone and no other path is affected; and, for a
    given path, that removing it when it exists does not throw. *)
Definition unlink_removes `{Platform} : Prop :=
  forall (fs fs' : FS) (p : jsstring),
    fs_unlinkSync fs p = inr fs' -> fs_existsSync fs' p = false.

Definition unlink_keeps_others `{Platform} : Prop :=
  forall (fs fs' : FS) (p q : jsstring),
    fs_unlinkSync fs p = inr fs' -> q <> p ->
    fs_existsSync fs' q = fs_existsSync fs q.

Definition unlink_succeeds_on `{Platform} (p : jsstring) : Prop :=
  forall (fs : FS),
    fs_existsSync fs p = true -> exists fs', fs_unlinkSync fs p = inr fs'.

(** A form entry the upload loop stages: a [File] under a [file-] key. *)
Definition staged (entry : jsstring * FormValue) : bool :=
  match (if startsWith (fst entry) (lit "file-") then as_file (snd entry)
         else None) with
  | Some _ => true
  | None => false
  end.

(** A text fenced as a code block, with or without the [json] tag. *)
Definition fenced (tag body : jsstring) : jsstring :=
  fence ++ tag ++ newline ++ body ++ fence.

(** The first sixteen code units of every markdown chunk, up to the
    [m] of its type; no other frame begins like this. *)
Definition markdown_head : jsstring :=
  lit "data: {" ++ quote ++ lit "type" ++ quote ++ lit ":" ++ quote ++ lit "m".

(** A code unit that does not break a line. *)
Definition inline (c : N) : Prop := c <> 10%N /\ c <> 13%N.

(** The test of [inline]. *)
Definition inlineb (c : N) : bool := negb (c =? 10)%N && negb (c =? 13)%N.

(** The three cases of [In name mandatory]. *)
Ltac each_mandatory M :=
  unfold mandatory in M; simpl in M; destruct M as [<-|[<-|[<-|[]]]].

(* ================================================================== *)
(** ** Strings: equality, trimming, splitting, digits *)
(* ================================================================== *)

Lemma eqb_refl (a : jsstring) : eqb a a = true.
Proof.
  induction a as [|x a IH]; simpl; [reflexivity|].
  now rewrite N.eqb_refl, IH.
Qed.

Lemma eqb_eq (a b : jsstring) : eqb a b = true <-> a = b.
Proof.
  split; [|intros ->; apply eqb_refl].
  revert b; induction a as [|x a IH]; intros [|y b]; simpl; try discriminate.
  - reflexivity.
  - intros E. apply andb_true_iff in E as [E1 E2].
    apply N.eqb_eq in E1. apply IH in E2. now subst.
Qed.

Lemma eqb_neq (a b : jsstring) : eqb a b = false <-> a <> b.
Proof.
  split.
  - intros E ->. now rewrite eqb_refl in E.
  - intros N. destruct (eqb a b) eqn:E; [|reflexivity].
    now apply eqb_eq in E.
Qed.

Lemma eqb_sym (a b : jsstring) : eqb a b = eqb b a.
Proof.
  destruct (eqb a b) eqn:E.
  - apply eqb_eq in E as ->. now rewrite eqb_refl.
  - symmetry. apply eqb_neq. apply eqb_neq in E. congruence.
Qed.

Lemma trimStart_blank (s : jsstring) : trimStart s = [] <-> blank s = true.
Proof.
  induction s as [|c r IH]; simpl; [tauto|].
  destruct (is_space c); simpl; [exact IH|].
  split; discriminate.
Qed.

Lemma trimStart_skips (ws rest : jsstring) :
  blank ws = true -> trimStart (ws ++ rest) = trimStart rest.
Proof.
  induction ws as [|c ws IH]; simpl; [reflexivity|].
  intros B. apply andb_true_iff in B as [Hc B].
  rewrite Hc. now apply IH.
Qed.

Lemma trimStart_keeps_last (s : jsstring) (c : N) :
  is_space c = false -> exists s', trimStart (s ++ [c]) = s' ++ [c].
Proof.
  intros Hc. induction s as [|x s IH]; simpl.
  - rewrite Hc. now exists [].
  - destruct (is_space x); [exact IH|].
    now exists (x :: s).
Qed.

Lemma trimStart_blank_result (s : jsstring) :
  blank (trimStart s) = true -> trimStart s = [].
Proof.
  induction s as [|c r IH]; simpl; [reflexivity|].
  destruct (is_space c) eqn:Hc; [exact IH|].
  simpl. rewrite Hc. discriminate.
Qed.

Lemma blank_rev (s : jsstring) : blank (rev s) = blank s.
Proof.
  unfold blank. induction s as [|c r IH]; simpl; [reflexivity|].
  rewrite forallb_app, IH. simpl. rewrite andb_true_r. apply andb_comm.
Qed.

(** [trim] gives the empty string exactly on blank strings. *)
Lemma trim_empty_iff (s : jsstring) : trim s = [] <-> blank s = true.
Proof.
  unfold trim, trimEnd. split.
  - intros E. apply (f_equal (@rev N)) in E. rewrite rev_involutive in E.
    simpl in E. apply trimStart_blank in E. rewrite blank_rev in E.
    apply trimStart_blank_result in E. now apply trimStart_blank.
  - intros B. apply trimStart_blank in B. now rewrite B.
Qed.

(** The first code unit of the trimmed string is the leading one that
    is no white space. *)
Lemma trim_leading (ws rest : jsstring) (c : N) :
  blank ws = true -> is_space c = false ->
  exists rest', trim (ws ++ c :: rest) = c :: rest'.
Proof.
  intros B Hc. unfold trim, trimEnd.
  rewrite (trimStart_skips _ _ B). simpl. rewrite Hc.
  simpl. destruct (trimStart_keeps_last (rev rest) c Hc) as [s' E].
  rewrite E, rev_app_distr. simpl. now exists (rev s').
Qed.

Lemma trim_head_not_space (s : jsstring) (c : N) (r : jsstring) :
  trim s = c :: r -> is_space c = false.
Proof.
  unfold trim, trimEnd. intros E.
  assert (F : forall t, trimStart t = [] \/
                        exists x u, trimStart t = x :: u /\ is_space x = false).
  { induction t as [|x u IH]; simpl; [now left|].
    destruct (is_space x) eqn:Hx; [exact IH|]. right. now exists x, u. }
  destruct (F s) as [E0|(x & u & Ex & Hx)].
  - rewrite E0 in E. discriminate.
  - rewrite Ex in E. simpl in E.
    destruct (trimStart_keeps_last (rev u) x Hx) as [s' E'].
    rewrite E', rev_app_distr in E. simpl in E. congruence.
Qed.

Lemma trimStart_decompose (s : jsstring) (c : N) (r : jsstring) :
  trimStart s = c :: r ->
  exists ws, s = ws ++ c :: r /\ blank ws = true /\ is_space c = false.
Proof.
  induction s as [|x u IH]; simpl; [discriminate|].
  destruct (is_space x) eqn:Hx.
  - intros E. destruct (IH E) as (ws & -> & B & Hc).
    exists (x :: ws). simpl. now rewrite Hx, B.
  - intros E. injection E as -> ->. now exists [].
Qed.

Lemma startsWith_unit (s : jsstring) (c : N) :
  startsWith s [c] = true <-> exists r, s = c :: r.
Proof.
  destruct s as [|x r]; simpl.
  - split; [discriminate|]. intros [r E]. discriminate.
  - destruct r; rewrite andb_true_r, N.eqb_eq.
    all: split; [intros ->; eauto | intros [r' E]; congruence].
Qed.

Lemma isJsonContent_iff (s : jsstring) :
  isJsonContent s = true <-> json_shaped s.
Proof.
  unfold isJsonContent, json_shaped.
  change (lit "{") with [123%N]. change (lit "[") with [91%N].
  rewrite orb_true_iff, !startsWith_unit. split.
  - intros H.
    assert (E : exists c r, trim s = c :: r /\ (c = 123%N \/ c = 91%N)).
    { destruct H as [[r E]|[r E]]; eauto. }
    destruct E as (c & r & E & Hc).
    unfold trim, trimEnd in E.
    destruct (trimStart s) as [|x u] eqn:Es; [discriminate|].
    destruct (trimStart_decompose _ _ _ Es) as (ws & -> & B & Hx).
    simpl in E. destruct (trimStart_keeps_last (rev u) x Hx) as [s' E'].
    rewrite E', rev_app_distr in E. simpl in E. injection E as -> _.
    now exists ws, c, u.
  - intros (ws & c & rest & -> & B & Hc).
    assert (Hs : is_space c = false) by (destruct Hc as [-> | ->]; reflexivity).
    destruct (trim_leading ws rest c B Hs) as [rest' E].
    rewrite E. destruct Hc as [-> | ->]; [left|right]; now exists rest'.
Qed.

Lemma isJsonContent_false_iff (s : jsstring) :
  isJsonContent s = false <-> ~ json_shaped s.
Proof.
  rewrite <- isJsonContent_iff. destruct (isJsonContent s); split;
    congruence.
Qed.



(** No segment holds the separator. *)
Lemma split_no_separator (sep : N) (s : jsstring) :
  Forall (fun seg => ~ In sep seg) (split sep s).
Proof.
  induction s as [|c r IH]; simpl.
  - constructor; [intros []|constructor].
  - destruct (N.eqb c sep) eqn:E.
    + constructor; [intros []|exact IH].
    + apply N.eqb_neq in E. destruct (split sep r) as [|seg segs].
      * constructor; [|constructor]. intros [->|[]]. congruence.
      * inversion IH as [|? ? Hseg Hsegs]; subst.
        constructor; [|exact Hsegs]. intros [->|Hin]; [congruence|tauto].
Qed.

Lemma trim_test (file : jsstring) :
  negb (eqb (trim file) []) = negb (blank file).
Proof.
  f_equal. destruct (blank file) eqn:B.
  - apply eqb_eq. now apply trim_empty_iff.
  - apply eqb_neq. intros E. apply trim_empty_iff in E. congruence.
Qed.

Lemma of_uint_digits (d : Decimal.uint) : forallb is_digit (of_uint d) = true.
Proof. induction d; simpl; auto. Qed.

Lemma of_uint_nil (d : Decimal.uint) : of_uint d = [] -> d = Decimal.Nil.
Proof. destruct d; simpl; congruence. Qed.

(** A timestamp prints as one or more decimal digits. *)
Lemma of_N_digits (n : N) :
  of_N n <> [] /\ forallb is_digit (of_N n) = true.
Proof.
  split; [|apply of_uint_digits].
  unfold of_N. intros E. apply of_uint_nil in E.
  destruct n as [|p]; simpl in E; [discriminate|].
  now apply (DecimalPos.Unsigned.to_uint_nonnil p).
Qed.

(* ================================================================== *)
(** ** The relay: one event, the loop, the whole task *)
(* ================================================================== *)

Section RelayFacts.
Context `{Platform}.

Lemma process_event_skip (event : JsValue) (keys : list jsstring) (w : Writer) :
  Object_keys event = Some keys ->
  hd_error keys <> Some Formatter ->
  process_event event w = (w, Normal).
Proof.
  intros K T. unfold process_event. rewrite K.
  destruct (hd_error keys) as [agentType|]; [|reflexivity].
  destruct (eqb agentType (lit "Formatter")) eqn:E; [|reflexivity].
  apply eqb_eq in E. subst. now destruct T.
Qed.

Lemma process_event_formatter (event : JsValue) (keys : list jsstring)
    (w : Writer) :
  Object_keys event = Some (Formatter :: keys) ->
  process_event event w =
  match extract_content event Formatter with
  | JStr content =>
      if isJsonContent (clean content) then
        (close (write (TextEncoder_encode completion_marker)
                  (write (TextEncoder_encode (error_chunk busy_message)) w)),
         Return)
      else
        (write (TextEncoder_encode (markdown_chunk (clean content))) w, Normal)
  | _ => (w, Throw (TypeError ReplaceNotCallable))
  end.
Proof.
  intros K. unfold process_event. rewrite K. simpl hd_error. cbv iota.
  unfold Formatter. rewrite eqb_refl. reflexivity.
Qed.

Lemma process_event_busy (event : JsValue) (keys : list jsstring)
    (content : jsstring) (w : Writer) :
  Object_keys event = Some (Formatter :: keys) ->
  extract_content event Formatter = JStr content ->
  json_shaped (clean content) ->
  process_event event w =
  (close (write (TextEncoder_encode completion_marker)
            (write (TextEncoder_encode (error_chunk busy_message)) w)),
   Return).
Proof.
  intros K C J. rewrite (process_event_formatter _ _ _ K), C.
  apply isJsonContent_iff in J. now rewrite J.
Qed.

Lemma process_event_markdown (event : JsValue) (keys : list jsstring)
    (content : jsstring) (w : Writer) :
  Object_keys event = Some (Formatter :: keys) ->
  extract_content event Formatter = JStr content ->
  ~ json_shaped (clean content) ->
  process_event event w =
  (write (TextEncoder_encode (markdown_chunk (clean content))) w, Normal).
Proof.
  intros K C J. rewrite (process_event_formatter _ _ _ K), C.
  apply isJsonContent_false_iff in J. now rewrite J.
Qed.

(** A prefix that is processed to its end hands its writer to what
    follows. *)
Lemma for_await_app (pre : list JsValue) :
  forall (w0 w : Writer) (rest : list JsValue) (stop : Ending),
    for_await pre Ends w0 = (w, Normal, []) ->
    for_await (pre ++ rest) stop w0 = for_await rest stop w.
Proof.
  induction pre as [|event pre IH]; simpl; intros w0 w rest stop E.
  - now injection E as ->.
  - destruct (process_event event w0) as [w' c].
    destruct c; try discriminate. now apply IH.
Qed.

(** The loop only ever appends to what has been written. *)
Lemma process_event_extends (event : JsValue) (w : Writer) :
  exists more, chunks (fst (process_event event w)) = chunks w ++ more.
Proof.
  unfold process_event.
  destruct (Object_keys event) as [keys|]; [|exists []; simpl; now rewrite List.app_nil_r].
  destruct (hd_error keys) as [agentType|];
    [|exists []; simpl; now rewrite List.app_nil_r].
  destruct (negb (eqb agentType (lit "Formatter")));
    [exists []; simpl; now rewrite List.app_nil_r|].
  destruct (extract_content event agentType);
    try (exists []; simpl; now rewrite List.app_nil_r).
  destruct (isJsonContent (clean s)); simpl.
  - rewrite <- List.app_assoc. eexists. reflexivity.
  - eexists. reflexivity.
Qed.

Lemma for_await_extends (evs : list JsValue) :
  forall (stop : Ending) (w : Writer),
    exists more,
      chunks (fst (fst (for_await evs stop w))) = chunks w ++ more.
Proof.
  induction evs as [|event evs IH]; simpl; intros stop w.
  - exists []. destruct stop; simpl; now rewrite List.app_nil_r.
  - destruct (process_event_extends event w) as [m1 E1].
    destruct (process_event event w) as [w' c]. simpl in E1.
    destruct c; simpl; try (now exists m1).
    destruct (IH stop w') as [m2 E2]. exists (m1 ++ m2).
    now rewrite E2, E1, List.app_assoc.
Qed.


(** Taking a skipped event out of the sequence changes nothing of what
    is written. *)
Lemma for_await_without_skipped (event : JsValue) (keys : list jsstring)
    (pre : list JsValue) :
  Object_keys event = Some keys ->
  hd_error keys <> Some Formatter ->
  forall (rest : list JsValue) (stop : Ending) (w : Writer),
    fst (for_await (pre ++ event :: rest) stop w) =
    fst (for_await (pre ++ rest) stop w).
Proof.
  intros K T. induction pre as [|e pre IH]; simpl; intros rest stop w.
  - now rewrite (process_event_skip _ _ _ K T).
  - destruct (process_event e w) as [w' c]. destruct c; simpl; auto.
Qed.

(** Events that are dropped or forwarded as markdown leave the loop
    running, with one chunk appended for each forwarded text. *)
Lemma for_await_forwards (evs : list JsValue) (outs : list (option jsstring)) :
  Forall2 relays evs outs ->
  forall (w : Writer),
    for_await evs Ends w =
    ({| chunks := chunks w ++
                  map (fun text => TextEncoder_encode (markdown_chunk text))
                      (forwarded outs);
        closed := closed w |}, Normal, []).
Proof.
  induction 1 as [|event out evs outs R _ IH]; intros w; simpl.
  - rewrite List.app_nil_r. now destruct w.
  - destruct R as [event keys K T|event keys content K C J].
    + rewrite (process_event_skip _ _ _ K T). apply IH.
    + rewrite (process_event_markdown _ _ _ _ K C J), IH. simpl.
      now rewrite <- List.app_assoc.
Qed.


End RelayFacts.

(* ================================================================== *)
(** ** The relay: properties *)
(* ================================================================== *)

Lemma completion_frame_sent :
  TextEncoder_encode completion_marker = completion_frame.
Proof. vm_compute. reflexivity. Qed.

Lemma busy_frame_sent :
  TextEncoder_encode (error_chunk busy_message) = busy_frame.
Proof. vm_compute. reflexivity. Qed.

Lemma markdown_frame_sent (text : jsstring) :
  TextEncoder_encode (markdown_chunk text) = markdown_frame text.
Proof.
  unfold markdown_frame. apply (f_equal TextEncoder_encode).
  unfold markdown_chunk, stringify_text. cbn [JSON_stringify].
  unfold json_quote. cbn [join]. rewrite <- !List.app_assoc.
  generalize (json_escape text) as escaped.
  intros escaped. vm_compute. reflexivity.
Qed.


Lemma event_stream_headers_sent : sse_headers = event_stream_headers.
Proof. vm_compute. reflexivity. Qed.


Section RelayProperties.
Context `{Platform}.

(** C1.  When the events before it have been processed to their end, a
    [Formatter] event whose content, once the fences are stripped,
    begins (after white space) with an opening brace or bracket makes the
    relay write exactly two more chunks, the error message with the text
    "server is busy currently try again later" and then the completion
    marker [event: complete], [data: done] and a blank line, close the
    stream and stop: the events after it are left unread, whatever they
    are and however the sequence would have ended. *)
Theorem json_content_short_circuits
    (pre rest : list JsValue) (stop : Ending) (w0 w : Writer)
    (event : JsValue) (keys : list jsstring) (content : jsstring) :
  for_await pre Ends w0 = (w, Normal, []) ->
  Object_keys event = Some (Formatter :: keys) ->
  extract_content event Formatter = JStr content ->
  json_shaped (clean content) ->
  relay_from {| events := pre ++ event :: rest; ending := stop |} w0 =
  ({| chunks := chunks w ++
                [wire "data: {'type':'error','content':'server is busy currently try again later'}||";
                 wire "event: complete|data: done||"];
      closed := true |},
   rest).
Proof.
  intros P K C J. unfold relay_from. simpl events. simpl ending.
  rewrite (for_await_app pre w0 w (event :: rest) stop P). simpl.
  rewrite (process_event_busy event keys content w K C J).
  unfold close, write. simpl.
  rewrite busy_frame_sent, completion_frame_sent.
  rewrite <- List.app_assoc. unfold busy_frame, completion_frame. reflexivity.
Qed.

(** C5.  An event whose first key is not "Formatter" (or that has no
    key at all) writes nothing and leaves the writer as it was; the loop
    goes on with the next event, and what the relay writes is what it
    writes for the sequence without that event. *)
Theorem other_agent_event_is_skipped
    (event : JsValue) (keys : list jsstring) :
  Object_keys event = Some keys ->
  hd_error keys <> Some Formatter ->
  (forall w, process_event event w = (w, Normal)) /\
  (forall rest stop w,
      for_await (event :: rest) stop w = for_await rest stop w) /\
  (forall pre rest stop w,
      fst (relay_from {| events := pre ++ event :: rest; ending := stop |} w) =
      fst (relay_from {| events := pre ++ rest; ending := stop |} w)).
Proof.
  intros K T. split; [|split].
  - intros w. exact (process_event_skip event keys w K T).
  - intros rest stop w. simpl.
    now rewrite (process_event_skip event keys w K T).
  - intros pre rest stop w. unfold relay_from. simpl events. simpl ending.
    pose proof (for_await_without_skipped event keys pre K T rest stop w) as E.
    destruct (for_await (pre ++ event :: rest) stop w) as [[w1 c1] u1].
    destruct (for_await (pre ++ rest) stop w) as [[w2 c2] u2].
    simpl in E. injection E as -> ->. now destruct c2.
Qed.

(** C6, as the code has it.  For a finite sequence that ends, in which
    every event is either dropped by the agent filter or a [Formatter]
    event whose extracted content is a string that is not JSON-shaped
    once cleaned, the relay writes one markdown frame per [Formatter]
    event, whose content field is the cleaned text as a JSON string, in
    the order of the events, then the completion marker, and closes the
    stream. *)
Theorem markdown_events_relayed_in_order
    (evs : list JsValue) (outs : list (option jsstring)) :
  Forall2 relays evs outs ->
  relay {| events := evs; ending := Ends |} =
  {| chunks :=
       map (fun text =>
              TextEncoder_encode
                (wire "data: {'type':'markdown','content':" ++ json_quote text ++
                 wire ",'isMarkdown':true}||"))
           (forwarded outs) ++
       [wire "event: complete|data: done||"];
     closed := true |}.
Proof.
  intros R. unfold relay, relay_from. simpl events. simpl ending.
  rewrite (for_await_forwards evs outs R open_writer).
  unfold close, write. simpl. rewrite completion_frame_sent.
  rewrite (map_ext _ _ markdown_frame_sent).
  unfold markdown_frame, completion_frame. reflexivity.
Qed.



(** An upstream sequence that raises after its events have been
    processed makes the loop throw what it raised. *)
Lemma for_await_raises (pre : list JsValue) (e : Thrown) :
  forall (w0 w : Writer),
    for_await pre Ends w0 = (w, Normal, []) ->
    for_await pre (Raises e) w0 = (w, Throw e, []).
Proof.
  intros w0 w P. rewrite <- (List.app_nil_r pre) at 1.
  now rewrite (for_await_app pre w0 w [] (Raises e) P).
Qed.

(** Where an exception that leaves the loop can come from: the upstream
    sequence itself, [Object.keys] on a [null] or [undefined] event, or
    [replace] on content that is no string. *)
Lemma for_await_throw_sources (evs : list JsValue) (stop : Ending) (e : Thrown) :
  forall (w0 w : Writer) (unread : list JsValue),
    for_await evs stop w0 = (w, Throw e, unread) ->
    (stop = Raises e /\ unread = []) \/
    e = TypeError KeysOfNullish \/
    e = TypeError ReplaceNotCallable.
Proof.
  induction evs as [|event evs IH]; simpl; intros w0 w unread E.
  - destruct stop; [discriminate|]. injection E as _ <- <-. now left.
  - destruct (process_event event w0) as [w' c] eqn:P.
    destruct c; [now apply IH in E|discriminate|].
    injection E as _ <- _. right. unfold process_event in P.
    destruct (Object_keys event) as [keys|];
      [|injection P as _ <-; now left].
    destruct (hd_error keys) as [agentType|]; [|discriminate].
    destruct (negb (eqb agentType (lit "Formatter"))); [discriminate|].
    destruct (extract_content event agentType);
      try (injection P as _ <-; now right).
    destruct (isJsonContent (clean s)); discriminate.
Qed.

End RelayProperties.

(* ================================================================== *)
(** ** The relay on sample streams *)
(* ================================================================== *)

Module RelaySamples.
Import Sample.

(** The busy message and the completion marker as they go out. *)
Example busy_chunk_text :
  error_chunk busy_message =
  lit "data: {" ++ quote ++ lit "type" ++ quote ++ lit ":" ++ quote ++
  lit "error" ++ quote ++ lit "," ++ quote ++ lit "content" ++ quote ++
  lit ":" ++ quote ++ lit "server is busy currently try again later" ++
  quote ++ lit "}" ++ newline ++ newline.
Proof. vm_compute. reflexivity. Qed.

Example fenced_json_cleaned :
  clean fenced_json =
  lit "{" ++ quote ++ lit "x" ++ quote ++ lit ":1}" ++ newline.
Proof. vm_compute. reflexivity. Qed.

Lemma json_content_short_circuits_witness :
  for_await before_json Ends open_writer =
  (write (TextEncoder_encode (markdown_chunk (lit "Q1"))) open_writer,
   Normal, []) /\
  json_shaped (clean fenced_json) /\
  relay_from json_stream open_writer =
  ({| chunks :=
        [wire "data: {'type':'markdown','content':'Q1','isMarkdown':true}||";
         wire "data: {'type':'error','content':'server is busy currently try again later'}||";
         wire "event: complete|data: done||"];
      closed := true |},
   after_json).
Proof.
  assert (P : for_await before_json Ends open_writer =
              (write (TextEncoder_encode (markdown_chunk (lit "Q1"))) open_writer,
               Normal, []))
    by (vm_compute; reflexivity).
  assert (J : json_shaped (clean fenced_json)).
  { exists [], 123%N, (tl (clean fenced_json)).
    split; [vm_compute; reflexivity | split; [reflexivity | now left]]. }
  split; [exact P | split; [exact J |]].
  unfold json_stream.
  rewrite (json_content_short_circuits before_json after_json
             (Raises (ThrownError (lit "late"))) open_writer _
             (formatter_event (JStr fenced_json)) [] fenced_json
             P eq_refl eq_refl J).
  vm_compute. reflexivity.
Defined.

Lemma other_agent_event_is_skipped_witness :
  Object_keys planner_event = Some [lit "Planner"] /\
  process_event planner_event open_writer = (open_writer, Normal).
Proof.
  split; [reflexivity|].
  apply (proj1 (other_agent_event_is_skipped planner_event [lit "Planner"]
                  eq_refl ltac:(vm_compute; discriminate))).
Defined.

Lemma markdown_events_relayed_in_order_witness :
  relay fenced_stream =
  {| chunks :=
       [wire "data: {'type':'markdown','content':'Q1','isMarkdown':true}||";
        wire "data: {'type':'markdown','content':'# Q2','isMarkdown':true}||";
        wire "event: complete|data: done||"];
     closed := true |}.
Proof.
  assert (Q : forall text,
             extract_content (formatter_event (JStr text)) Formatter = JStr text ->
             isJsonContent (clean text) = false ->
             relays (formatter_event (JStr text)) (Some (clean text))).
  { intros text C J. apply (relays_markdown _ [] text); [reflexivity|exact C|].
    now apply isJsonContent_false_iff. }
  unfold fenced_stream. simpl events.
  rewrite (markdown_events_relayed_in_order (events fenced_stream)
             [Some (clean (lit "Q1")); None;
              Some (clean (fence ++ newline ++ lit "# Q2" ++ fence))]).
  - vm_compute. reflexivity.
  - apply Forall2_cons; [apply Q; vm_compute; reflexivity|].
    apply Forall2_cons.
    { apply (relays_dropped _ [lit "Planner"]); [reflexivity|].
      vm_compute. discriminate. }
    apply Forall2_cons; [apply Q; vm_compute; reflexivity|].
    apply Forall2_nil.
Defined.

(** C6 as it is written fails: the empty string is content that is not
    JSON-shaped, yet a [Formatter] event with it gets no markdown
    message; its content is the serialized event and the relay answers
    with the busy message. *)
Lemma empty_content_is_answered_busy :
  js_get (js_get (js_get (js_get (formatter_event (JStr [])) Formatter)
                    (lit "messages")) (lit "0")) (lit "content") = JStr [] /\
  isJsonContent (clean []) = false /\
  relay empty_stream =
  {| chunks :=
       [wire "data: {'type':'error','content':'server is busy currently try again later'}||";
        wire "event: complete|data: done||"];
     closed := true |} /\
  relay empty_stream <>
  {| chunks := [markdown_frame (clean []); completion_frame]; closed := true |}.
Proof.
  split; [reflexivity|]. split; [reflexivity|].
  split; [vm_compute; reflexivity|].
  intros E. vm_compute in E. discriminate E.
Qed.





End RelaySamples.

(* ================================================================== *)
(** ** GET: validation properties *)
(* ================================================================== *)

Lemma provided_false_iff (p : option jsstring) :
  provided p = false <-> p = None \/ p = Some [].
Proof.
  destruct p as [[|c r]|]; simpl; split; intros E; auto; try discriminate.
  destruct E as [E|E]; discriminate.
Qed.

Lemma not_received_missing_body (header description key : option jsstring)
    (model : jsstring) :
  not_received (missing_parameters_body header description key model) =
  (if provided header then [] else [lit "questionHeader"]) ++
  (if provided description then [] else [lit "questionDescription"]) ++
  (if provided key then [] else [lit "apiKey"]).
Proof.
  destruct (provided header) eqn:E1, (provided description) eqn:E2,
    (provided key) eqn:E3;
    unfold not_received, missing_parameters_body;
    rewrite E1, E2, E3; vm_compute; reflexivity.
Qed.

Lemma searchParams_get_removed (name : jsstring)
    (params : list (jsstring * jsstring)) :
  searchParams_get (remove_param name params) name = None.
Proof.
  induction params as [|[k v] rest IH]; simpl; [reflexivity|].
  destruct (eqb k name) eqn:E; simpl; [exact IH|].
  now rewrite E.
Qed.

Lemma searchParams_get_other (name other : jsstring)
    (params : list (jsstring * jsstring)) :
  other <> name ->
  searchParams_get (remove_param name params) other =
  searchParams_get params other.
Proof.
  intros D. induction params as [|[k v] rest IH]; simpl; [reflexivity|].
  destruct (eqb k name) eqn:E; simpl.
  - apply eqb_eq in E. subst k.
    assert (E' : eqb name other = false) by (apply eqb_neq; congruence).
    now rewrite E'.
  - now rewrite IH.
Qed.

Section GenerateProperties.
Context `{Platform}.
Variable generateQuestions : GenerationRequest -> FS -> Thrown + GenerationResult.

Lemma GET_validate_missing (sp : list (jsstring * jsstring)) (fs : FS) :
  provided (header_of sp) && provided (description_of sp) && provided (key_of sp)
  = false ->
  exists model,
    GET_validate sp fs =
    inl (JsonResponse 400
           (missing_parameters_body (header_of sp) (description_of sp) (key_of sp) model))
    /\ model =
       (if provided (searchParams_get sp (lit "modelName"))
        then narrowed (searchParams_get sp (lit "modelName"))
        else default_model).
Proof.
  intros G. unfold GET_validate. fold (header_of sp) (description_of sp) (key_of sp).
  eexists. split; [|reflexivity].
  destruct (provided (header_of sp)), (provided (description_of sp)),
    (provided (key_of sp)); try discriminate; reflexivity.
Qed.

Lemma GET_validate_passed (sp : list (jsstring * jsstring)) (fs : FS) :
  provided (header_of sp) = true ->
  provided (description_of sp) = true ->
  provided (key_of sp) = true ->
  let declared := parse_uploadedFiles (searchParams_get sp (lit "uploadedFiles")) in
  let request files :=
    {| questionHeader := narrowed (header_of sp);
       questionDescription := narrowed (description_of sp);
       apiKey := narrowed (key_of sp);
       uploadedFiles := files;
       modelName :=
         if provided (searchParams_get sp (lit "modelName"))
         then narrowed (searchParams_get sp (lit "modelName"))
         else default_model |} in
  GET_validate sp fs =
  match declared, existing_files fs declared with
  | [], _ => inr (request [])
  | _ :: _, [] => inl (JsonResponse 400 files_not_found_body)
  | _ :: _, existing => inr (request existing)
  end.
Proof.
  intros H1 H2 H3 declared request. unfold GET_validate.
  fold (header_of sp) (description_of sp) (key_of sp). rewrite H1, H2, H3.
  simpl negb. simpl orb. cbv iota. fold declared. cbv zeta.
  destruct declared as [|f l]; [reflexivity|].
  generalize (existing_files fs (f :: l)) as existing.
  intros [|g m]; reflexivity.
Qed.

(** C4.  A request that lacks one of the three mandatory parameters is
    answered with status 400 and nothing else happens; the mandatory
    parameters the body reports as not received are exactly the missing
    ones, a parameter being missing when the query has no value for it or
    an empty one. *)
Theorem missing_parameters_are_reported
    (sp : list (jsstring * jsstring)) (fs : FS) :
  header_of sp = None \/ description_of sp = None \/ key_of sp = None ->
  exists body,
    GET generateQuestions sp fs = (JsonResponse 400 body, fs) /\
    forall name,
      In name mandatory ->
      (In name (not_received body) <->
       searchParams_get sp name = None \/ searchParams_get sp name = Some []).
Proof.
  intros A.
  assert (G : provided (header_of sp) && provided (description_of sp)
              && provided (key_of sp) = false).
  { destruct A as [E|[E|E]]; rewrite E; simpl;
      rewrite ?andb_false_r; reflexivity. }
  destruct (GET_validate_missing sp fs G) as (model & V & _).
  eexists. unfold GET. rewrite V. split; [reflexivity|].
  intros name M. rewrite not_received_missing_body.
  rewrite <- provided_false_iff.
  each_mandatory M;
    fold (header_of sp) (description_of sp) (key_of sp);
    destruct (provided (header_of sp)), (provided (description_of sp)),
      (provided (key_of sp));
    vm_compute; intuition congruence.
Qed.

(** C9.  A mandatory parameter given with an empty value is met by the
    same test as one that is not given: the answer is the 400 of the
    missing-parameter branch, and it is the very answer the request gets
    with that parameter taken out of the query. *)
Theorem empty_parameter_counts_as_absent
    (sp : list (jsstring * jsstring)) (fs : FS) (name : jsstring) :
  In name mandatory ->
  searchParams_get sp name = Some [] ->
  (exists model,
      GET generateQuestions sp fs =
      (JsonResponse 400
         (missing_parameters_body (header_of sp) (description_of sp) (key_of sp) model),
       fs)) /\
  GET generateQuestions sp fs =
  GET generateQuestions (remove_param name sp) fs.
Proof.
  intros M E.
  assert (G : provided (header_of sp) && provided (description_of sp)
              && provided (key_of sp) = false).
  { each_mandatory M; unfold header_of, description_of, key_of;
      rewrite E; simpl; rewrite ?andb_false_r; reflexivity. }
  destruct (GET_validate_missing sp fs G) as (model & V & Em).
  split; [exists model; unfold GET; now rewrite V|].
  assert (G' : provided (header_of (remove_param name sp))
               && provided (description_of (remove_param name sp))
               && provided (key_of (remove_param name sp)) = false).
  { each_mandatory M; unfold header_of, description_of, key_of;
      rewrite searchParams_get_removed; simpl;
      rewrite ?andb_false_r; reflexivity. }
  destruct (GET_validate_missing (remove_param name sp) fs G')
    as (model' & V' & Em').
  unfold GET. rewrite V, V'. f_equal. f_equal.
  assert (Mo : model' = model).
  { rewrite Em, Em'. rewrite searchParams_get_other; [reflexivity|].
    each_mandatory M; vm_compute; discriminate. }
  rewrite Mo. unfold missing_parameters_body.
  each_mandatory M; unfold header_of, description_of, key_of;
    rewrite searchParams_get_removed, E;
    rewrite !searchParams_get_other by (vm_compute; discriminate);
    reflexivity.
Qed.

End GenerateProperties.

Section FileProperties.
Context `{Platform}.
Variable generateQuestions : GenerationRequest -> FS -> Thrown + GenerationResult.

(** C7, as the code has it.  For a request with its three mandatory
    parameters and a declared file list that is not empty, a declared
    file is looked for at the path that joins the scratch directory and
    its name.  When none is found there the answer is status 400 with the
    "not found" message and nothing else happens.  When at least one is
    found the check reports no error and generation proceeds: the service
    is called with exactly the declared files that were found, and the
    answer is made from what the service gives back, the event stream of
    its events, or the 500 of its rejection or of its missing stream. *)
Theorem declared_files_are_rechecked
    (sp : list (jsstring * jsstring)) (fs : FS) :
  provided (searchParams_get sp (lit "questionHeader")) = true ->
  provided (searchParams_get sp (lit "questionDescription")) = true ->
  provided (searchParams_get sp (lit "apiKey")) = true ->
  let declared := parse_uploadedFiles (searchParams_get sp (lit "uploadedFiles")) in
  let found :=
    filter (fun file => fs_existsSync fs (path_join tempDir file)) declared in
  declared <> [] ->
  (found = [] ->
   GET generateQuestions sp fs =
   (JsonResponse 400
      (JObj [(lit "message",
              JStr (lit "Uploaded files not found on server. Please try uploading again."))]),
    fs)) /\
  (found <> [] ->
   exists request,
     GET_validate sp fs = inr request /\
     uploadedFiles request = found /\
     (forall up,
         generateQuestions request fs = inr {| stream := Some up |} ->
         fst (GET generateQuestions sp fs) =
         StreamResponse
           [(wire "Content-Type", wire "text/event-stream");
            (wire "Cache-Control", wire "no-cache");
            (wire "Connection", wire "keep-alive")]
           (relay up)) /\
     (forall e,
         generateQuestions request fs = inl e ->
         GET generateQuestions sp fs =
         (internal_error e (lit "Failed to generate questions"), fs)) /\
     (generateQuestions request fs = inr {| stream := None |} ->
      fst (GET generateQuestions sp fs) =
      JsonResponse 500
        (JObj [(lit "message",
                JStr (lit "No stream returned from generation service"))]))).
Proof.
  intros H1 H2 H3. cbv zeta.
  fold (existing_files fs
          (parse_uploadedFiles (searchParams_get sp (lit "uploadedFiles")))).
  pose proof (GET_validate_passed sp fs H1 H2 H3) as V. cbv zeta in V.
  destruct (parse_uploadedFiles (searchParams_get sp (lit "uploadedFiles")))
    as [|f l]; intros D; [now destruct D|].
  destruct (existing_files fs (f :: l)) as [|g m]; cbv iota in V.
  - split; [|intros E; now destruct E].
    intros _. unfold GET. now rewrite V.
  - split; [discriminate|]. intros _.
    eexists. split; [exact V|]. split; [reflexivity|].
    unfold GET. rewrite V. unfold GET_generate.
    split; [|split].
    + intros up S. rewrite S. cbn [stream fst].
      now rewrite event_stream_headers_sent.
    + intros e S. now rewrite S.
    + intros S. now rewrite S.
Qed.


End FileProperties.

(* ================================================================== *)
(** ** POST: the names of the staged files *)
(* ================================================================== *)

Lemma after_digits_suffix (digits suffix : jsstring) (c : N) :
  forallb is_digit digits = true ->
  is_digit c = false ->
  after_digits (digits ++ c :: suffix) = c :: suffix.
Proof.
  intros D C. induction digits as [|d ds IH]; simpl.
  - now rewrite C.
  - simpl in D. apply andb_true_iff in D as [Hd D]. rewrite Hd. now apply IH.
Qed.

Lemma digits_pdf_matches (digits : jsstring) :
  digits <> [] ->
  forallb is_digit digits = true ->
  matches_digits_pdf (digits ++ lit ".pdf") = true.
Proof.
  intros N D. destruct digits as [|d ds]; [now destruct N|].
  unfold matches_digits_pdf.
  change (lit ".pdf") with (46%N :: lit "pdf").
  rewrite (after_digits_suffix (d :: ds) (lit "pdf") 46 D eq_refl).
  simpl in D. apply andb_true_iff in D as [Hd _].
  simpl. rewrite Hd. reflexivity.
Qed.

Section UploadProperties.
Context `{Platform}.
Variable Date_now : nat -> N.

Lemma store_filename (fs fs' : FS) (tick : nat) (name : jsstring)
    (bytes : list N) (filename : jsstring) :
  store Date_now fs tick name bytes = (fs', inr filename) ->
  filename = of_N (Date_now tick) ++ path_extname name.
Proof.
  unfold store, generated_filename.
  destruct (if negb (fs_existsSync fs tempDir) then fs_mkdirSync fs tempDir
            else inr fs) as [e|fs1]; [discriminate|].
  destruct (fs_writeFileSync fs1 _ bytes) as [e|fs2]; [discriminate|].
  intros E. now injection E as _ <-.
Qed.

Lemma store_entries_names (entries : list (jsstring * FormValue)) :
  forall (fs fs' : FS) (tick : nat) (uploaded names : list jsstring),
    store_entries Date_now entries fs tick uploaded = (fs', inr names) ->
    names = uploaded ++ expected_names Date_now entries tick.
Proof.
  induction entries as [|[key value] rest IH]; simpl;
    intros fs fs' tick uploaded names E.
  - injection E as _ <-. now rewrite List.app_nil_r.
  - destruct (if startsWith key (lit "file-") then as_file value else None)
      as [[name bytes]|]; [|now apply IH in E].
    destruct (store Date_now fs tick name bytes) as [fs1 [e|filename]] eqn:S;
      [discriminate|].
    apply store_filename in S. subst filename.
    apply IH in E. now rewrite <- List.app_assoc in E.
Qed.

(** C8.  When the upload succeeds, the names it returns are, file by
    file and in order, the decimal epoch milliseconds read for that file
    followed by the extension of its original name; and such a name, for
    the extension ".pdf", is one or more digits followed by ".pdf". *)
Theorem uploaded_names_are_timestamp_and_extension
    (entries : list (jsstring * FormValue)) (fs fs' : FS) (body : JsValue) :
  POST Date_now (inr entries) fs = (JsonResponse 200 body, fs') ->
  body = JObj [(lit "message", JStr (lit "success"));
               (lit "uploadedFiles",
                JArr (map JStr (expected_names Date_now entries 0)))] /\
  (forall tick name,
      generated_filename (Date_now tick) (path_extname name) =
      of_N (Date_now tick) ++ path_extname name) /\
  (forall tick name,
      path_extname name = lit ".pdf" ->
      matches_digits_pdf
        (generated_filename (Date_now tick) (path_extname name)) = true).
Proof.
  intros E. unfold POST in E.
  destruct (store_entries Date_now entries fs 0 []) as [fs1 [e|names]] eqn:S.
  - unfold internal_error in E.
    destruct (message_or e (lit "Failed to process request")); discriminate.
  - apply store_entries_names in S. simpl in S. subst names.
    injection E as <- _. repeat split.
    intros tick name P. rewrite P. unfold generated_filename.
    apply digits_pdf_matches; apply of_N_digits.
Qed.

End UploadProperties.

(* ================================================================== *)
(** ** The handlers on sample requests *)
(* ================================================================== *)

Module HandlerSamples.
Import Sample.

(** A whole request: the query is valid, the declared file that exists
    is handed to the service and removed afterwards, and the two
    questions are streamed, followed by the completion marker. *)
Example GET_streams_two_questions :
  GET (H:=platform) two_questions with_files scratch =
  (StreamResponse sse_headers
     {| chunks := [TextEncoder_encode (markdown_chunk (lit "Q1"));
                   TextEncoder_encode (markdown_chunk (lit "Q2"));
                   TextEncoder_encode completion_marker];
        closed := true |},
   [lit "/app/temp"]) /\
  GET_validate (H:=platform) plain_query scratch =
  inr {| questionHeader := lit "Exam";
         questionDescription := lit "Chapter 3";
         apiKey := lit "k";
         uploadedFiles := [];
         modelName := default_model |}.
Proof. split; vm_compute; reflexivity. Qed.

Lemma uploaded_names_are_timestamp_and_extension_witness :
  POST clock (inr upload) [] =
  (JsonResponse 200 upload_body, snd (POST clock (inr upload) [])) /\
  upload_body =
  JObj [(lit "message", JStr (lit "success"));
        (lit "uploadedFiles", JArr (map JStr (expected_names clock upload 0)))] /\
  matches_digits_pdf
    (generated_filename (clock 0) (path_extname (lit "notes.pdf"))) = true.
Proof.
  assert (E : POST clock (inr upload) [] =
              (JsonResponse 200 upload_body, snd (POST clock (inr upload) [])))
    by (vm_compute; reflexivity).
  destruct (@uploaded_names_are_timestamp_and_extension platform
              clock upload [] _ upload_body E) as (B & _ & M).
  split; [exact E|]. split; [exact B|].
  exact (M 0%nat (lit "notes.pdf") eq_refl).
Defined.

Lemma missing_parameters_are_reported_witness :
  searchParams_get keyless (lit "questionHeader") = None /\
  exists body,
    GET (H:=platform) two_questions keyless [] = (JsonResponse 400 body, []) /\
    not_received body = [lit "questionHeader"; lit "apiKey"].
Proof.
  split; [reflexivity|].
  destruct (missing_parameters_are_reported (H:=platform) two_questions keyless []
              (or_introl eq_refl)) as (body & E & _).
  exists body. split; [exact E|].
  assert (E' : GET (H:=platform) two_questions keyless [] =
               (JsonResponse 400
                  (missing_parameters_body None (Some (lit "Chapter 3"))
                     (Some []) (lit "m")), []))
    by (vm_compute; reflexivity).
  rewrite E' in E. injection E as <-. vm_compute. reflexivity.
Defined.

Lemma empty_parameter_counts_as_absent_witness :
  searchParams_get empty_key (lit "apiKey") = Some [] /\
  GET (H:=platform) two_questions empty_key [] =
  GET (H:=platform) two_questions (remove_param (lit "apiKey") empty_key) [].
Proof.
  split; [reflexivity|].
  apply (proj2 (empty_parameter_counts_as_absent (H:=platform) two_questions
                  empty_key [] (lit "apiKey")
                  (or_intror (or_intror (or_introl eq_refl))) eq_refl)).
Defined.

Lemma declared_files_are_rechecked_witness :
  parse_uploadedFiles (searchParams_get with_files (lit "uploadedFiles")) =
  [lit " a.txt "; lit "b.txt"] /\
  fst (GET (H:=platform) two_questions with_files []) =
  JsonResponse 400 files_not_found_body /\
  fst (GET (H:=platform) two_questions with_files scratch) =
  StreamResponse
    [(wire "Content-Type", wire "text/event-stream");
     (wire "Cache-Control", wire "no-cache");
     (wire "Connection", wire "keep-alive")]
    {| chunks :=
         [wire "data: {'type':'markdown','content':'Q1','isMarkdown':true}||";
          wire "data: {'type':'markdown','content':'Q2','isMarkdown':true}||";
          wire "event: complete|data: done||"];
       closed := true |}.
Proof.
  split; [vm_compute; reflexivity|].
  pose proof (declared_files_are_rechecked (H:=platform) two_questions with_files []
                eq_refl eq_refl eq_refl ltac:(vm_compute; discriminate)) as [A _].
  pose proof (declared_files_are_rechecked (H:=platform) two_questions with_files scratch
                eq_refl eq_refl eq_refl ltac:(vm_compute; discriminate)) as [_ B].
  split.
  - rewrite (A eq_refl). reflexivity.
  - destruct (B ltac:(vm_compute; discriminate)) as (request & _ & _ & S & _).
    rewrite (S _ eq_refl). vm_compute. reflexivity.
Defined.

(** C7 as it is written fails: with nothing in the scratch directory,
    which is not even there, a declared name that leads out of it to an
    existing file is accepted; the request is streamed, and the file
    beside the scratch directory is removed afterwards. *)
Lemma declared_file_outside_scratch_is_accepted :
  forallb (fun path => negb (startsWith path (lit "/app/temp"))) victim_disk = true /\
  parse_uploadedFiles (searchParams_get traversal_query (lit "uploadedFiles")) =
  [lit "../victim.txt"] /\
  path_join (Platform:=platform) (tempDir (H:=platform)) (lit "../victim.txt") =
  lit "/app/victim.txt" /\
  GET (H:=platform) two_questions traversal_query victim_disk =
  (StreamResponse
     [(wire "Content-Type", wire "text/event-stream");
      (wire "Cache-Control", wire "no-cache");
      (wire "Connection", wire "keep-alive")]
     {| chunks :=
          [wire "data: {'type':'markdown','content':'Q1','isMarkdown':true}||";
           wire "data: {'type':'markdown','content':'Q2','isMarkdown':true}||";
           wire "event: complete|data: done||"];
        closed := true |},
   []) /\
  fst (GET (H:=platform) two_questions traversal_query victim_disk) <>
  JsonResponse 400 files_not_found_body.
Proof.
  split; [reflexivity|]. split; [vm_compute; reflexivity|].
  split; [vm_compute; reflexivity|]. split; [vm_compute; reflexivity|].
  intros E. vm_compute in E. discriminate E.
Qed.


End HandlerSamples.

(* ================================================================== *)
(** ** The relay as a protocol *)
(* ================================================================== *)

(** An ASCII code unit is its own UTF-8 encoding. *)
Lemma encode_ascii (c : N) (rest : jsstring) :
  (c < 128)%N ->
  TextEncoder_encode (c :: rest) = c :: TextEncoder_encode rest.
Proof.
  intros L. unfold TextEncoder_encode. simpl code_points.
  assert (Hh : is_high c = false).
  { unfold is_high. apply andb_false_iff. left. apply N.leb_gt.
    eapply N.lt_trans; [exact L|reflexivity]. }
  assert (Hl : is_low c = false).
  { unfold is_low. apply andb_false_iff. left. apply N.leb_gt.
    eapply N.lt_trans; [exact L|reflexivity]. }
  rewrite Hh, Hl. simpl flat_map. unfold utf8.
  apply N.ltb_lt in L. rewrite L. reflexivity.
Qed.

Lemma encode_ascii_prefix (prefix rest : jsstring) :
  Forall (fun c => (c < 128)%N) prefix ->
  TextEncoder_encode (prefix ++ rest) = prefix ++ TextEncoder_encode rest.
Proof.
  induction 1 as [|c prefix L _ IH]; simpl; [reflexivity|].
  now rewrite (encode_ascii c (prefix ++ rest) L), IH.
Qed.

Lemma markdown_chunk_head (text : jsstring) :
  TextEncoder_encode (markdown_chunk text) =
  markdown_head ++ TextEncoder_encode (skipn 16 (markdown_chunk text)).
Proof.
  rewrite <- encode_ascii_prefix.
  - f_equal.
  - unfold markdown_head. repeat constructor.
Qed.

Lemma markdown_chunk_not_completion (text : jsstring) :
  TextEncoder_encode (markdown_chunk text) <>
  TextEncoder_encode completion_marker.
Proof.
  rewrite markdown_chunk_head.
  generalize (TextEncoder_encode (skipn 16 (markdown_chunk text))).
  intros rest E. vm_compute in E. discriminate E.
Qed.

Lemma markdown_chunk_not_busy (text : jsstring) :
  TextEncoder_encode (markdown_chunk text) <>
  TextEncoder_encode (error_chunk busy_message).
Proof.
  rewrite markdown_chunk_head.
  generalize (TextEncoder_encode (skipn 16 (markdown_chunk text))).
  intros rest E. vm_compute in E. discriminate E.
Qed.

Lemma error_event_head (message : jsstring) :
  exists rest, TextEncoder_encode (error_event message) = 101%N :: rest.
Proof.
  exists (TextEncoder_encode (tl (error_event message))).
  rewrite <- encode_ascii by reflexivity. f_equal.
Qed.

Lemma markdown_chunk_not_error_event (text message : jsstring) :
  TextEncoder_encode (markdown_chunk text) <>
  TextEncoder_encode (error_event message).
Proof.
  rewrite markdown_chunk_head. destruct (error_event_head message) as [r ->].
  generalize (TextEncoder_encode (skipn 16 (markdown_chunk text))).
  intros rest E. vm_compute in E. discriminate E.
Qed.

Lemma busy_not_error_event (message : jsstring) :
  TextEncoder_encode (error_chunk busy_message) <>
  TextEncoder_encode (error_event message).
Proof.
  destruct (error_event_head message) as [r ->]. vm_compute. discriminate.
Qed.

Lemma busy_not_completion :
  TextEncoder_encode (error_chunk busy_message) <>
  TextEncoder_encode completion_marker.
Proof. vm_compute. discriminate. Qed.

(** Where an element sits in a list that ends with a known tail, when
    it is none of the elements before that tail. *)
Lemma split_in_tail {A} (front tail pre post : list A) (x : A) :
  front ++ tail = pre ++ x :: post ->
  ~ In x front ->
  exists k, pre = front ++ k /\ tail = k ++ x :: post.
Proof.
  revert pre. induction front as [|a front IH]; intros pre E N.
  - exists pre. now split.
  - destruct pre as [|b pre]; simpl in E; injection E as <- E.
    + destruct N. now left.
    + destruct (IH pre E) as (k & -> & ->); [intros I; apply N; now right|].
      now exists k.
Qed.

Section RelayProtocol.
Context `{Platform}.

Lemma process_event_cases (event : JsValue) (w : Writer) :
  process_event event w = (w, Normal) \/
  (exists e, process_event event w = (w, Throw e)) \/
  (exists text,
      ~ json_shaped text /\
      process_event event w =
      (write (TextEncoder_encode (markdown_chunk text)) w, Normal)) \/
  process_event event w =
  (close (write (TextEncoder_encode completion_marker)
            (write (TextEncoder_encode (error_chunk busy_message)) w)),
   Return).
Proof.
  unfold process_event.
  destruct (Object_keys event) as [keys|]; [|right; left; eauto].
  destruct (hd_error keys) as [agentType|]; [|now left].
  destruct (negb (eqb agentType (lit "Formatter"))); [now left|].
  destruct (extract_content event agentType);
    try (right; left; eauto; fail).
  destruct (isJsonContent (clean s)) eqn:J.
  - now right; right; right.
  - right; right; left. exists (clean s). split; [|reflexivity].
    now apply isJsonContent_false_iff.
Qed.

(** What the loop has written when it is left: the markdown chunks of
    some texts, at most one per event, none of them JSON-shaped, and the
    busy message with the completion marker if it was left by
    [return]. *)
Lemma for_await_shape (evs : list JsValue) (stop : Ending) :
  forall (w : Writer),
  exists texts,
    List.length texts <= List.length evs /\
    Forall (fun text => ~ json_shaped text) texts /\
    match for_await evs stop w with
    | (w', Return, _) =>
        w' = {| chunks := chunks w ++
                          map (fun text => TextEncoder_encode (markdown_chunk text))
                              texts ++
                          [TextEncoder_encode (error_chunk busy_message);
                           TextEncoder_encode completion_marker];
                closed := true |}
    | (w', _, _) =>
        w' = {| chunks := chunks w ++
                          map (fun text => TextEncoder_encode (markdown_chunk text))
                              texts;
                closed := closed w |}
    end.
Proof.
  induction evs as [|event evs IH]; intros w; simpl.
  - exists []. simpl. rewrite List.app_nil_r.
    split; [lia|]. split; [constructor|]. destruct stop, w; reflexivity.
  - destruct (process_event_cases event w) as [E|[[e E]|[(text & J & E)|E]]];
      rewrite E.
    + destruct (IH w) as (texts & L & F & S). exists texts.
      split; [lia|]. split; [exact F|exact S].
    + exists []. simpl. rewrite List.app_nil_r.
      split; [lia|]. split; [constructor|now destruct w].
    + destruct (IH (write (TextEncoder_encode (markdown_chunk text)) w))
        as (texts & L & F & S).
      exists (text :: texts). simpl.
      split; [lia|]. split; [now constructor|].
      destruct (for_await evs stop _) as [[w' c] unread].
      destruct c; simpl in S; rewrite <- List.app_assoc in S; exact S.
    + exists []. split; [simpl; lia|]. split; [constructor|].
      unfold close, write. simpl. now rewrite <- List.app_assoc.
Qed.

Lemma relay_from_shape (up : Upstream) (w : Writer) :
  exists texts finale,
    fst (relay_from up w) =
    {| chunks := chunks w ++
                 map (fun text => TextEncoder_encode (markdown_chunk text)) texts ++
                 finale;
       closed := true |} /\
    stream_end finale /\
    List.length texts <= List.length (events up) /\
    Forall (fun text => ~ json_shaped text) texts.
Proof.
  destruct (for_await_shape (events up) (ending up) w) as (texts & L & F & S).
  exists texts. unfold relay_from.
  destruct (for_await (events up) (ending up) w) as [[w' c] unread].
  destruct c; subst w'.
  - exists [TextEncoder_encode completion_marker].
    split; [|split; [apply end_completed|split; assumption]].
    unfold close, write. cbn [fst chunks closed].
    now rewrite <- List.app_assoc.
  - exists [TextEncoder_encode (error_chunk busy_message);
            TextEncoder_encode completion_marker].
    split; [reflexivity|split; [apply end_busy|split; assumption]].
  - exists [TextEncoder_encode (error_event (errorMessage_of e))].
    split; [|split; [apply end_failed|split; assumption]].
    unfold close, write. cbn [fst chunks closed].
    now rewrite <- List.app_assoc.
Qed.

End RelayProtocol.

Lemma clean_keeps_brace (body : jsstring) :
  exists rest, clean (123%N :: body) = 123%N :: rest.
Proof.
  unfold clean.
  change (remove_opening_fences 0 (123%N :: body))
    with (123%N :: remove_opening_fences 0 body).
  generalize (remove_opening_fences 0 body) as x. intros x.
  unfold remove_closing_fence.
  destruct (endsWith (123%N :: x) fence) eqn:E; [|now exists x].
  assert (L : 3 <= List.length x).
  { unfold endsWith in E. simpl rev in E. rewrite <- (length_rev x).
    destruct (rev x) as [|a [|b [|c r]]]; simpl in E;
      rewrite ?andb_false_r in E; try discriminate.
    simpl. lia. }
  replace (List.length (123%N :: x) - 3) with (S (List.length x - 3))
    by (simpl; lia).
  simpl. eexists. reflexivity.
Qed.

Lemma unit_decompose {A} (k post : list A) (x a : A) :
  k ++ x :: post = [a] -> k = [] /\ x = a /\ post = [].
Proof.
  destruct k as [|y k]; simpl; intros E.
  - injection E as -> ->. now repeat split.
  - injection E as _ E. destruct k; discriminate.
Qed.

Lemma pair_decompose {A} (k post : list A) (x a b : A) :
  k ++ x :: post = [a; b] ->
  (k = [] /\ x = a /\ post = [b]) \/ (k = [a] /\ x = b /\ post = []).
Proof.
  destruct k as [|y k]; simpl; intros E.
  - injection E as -> ->. left. now repeat split.
  - injection E as -> E. apply unit_decompose in E as (-> & -> & ->).
    right. now repeat split.
Qed.

Section RelayProtocolProperties.
Context `{Platform}.

(** X1.  Whatever the upstream sequence does, the relay closes the
    stream, and what it has written is a run of markdown chunks, at most
    one per event and none of a JSON-shaped text, followed by exactly
    one ending: the completion marker, the busy message and the
    completion marker, or the error frame. *)
Theorem relay_stream_shape (up : Upstream) :
  exists texts finale,
    relay up =
    {| chunks := map (fun text => TextEncoder_encode (markdown_chunk text)) texts ++
                 finale;
       closed := true |} /\
    stream_end finale /\
    List.length texts <= List.length (events up) /\
    Forall (fun text => ~ json_shaped text) texts.
Proof.
  destruct (relay_from_shape up open_writer) as (texts & finale & E & S & L & F).
  exists texts, finale. unfold relay. rewrite E. now repeat split.
Qed.

(** X2.  The frames that end a stream are never followed by anything
    else: wherever the completion marker or the error frame occurs among
    the chunks it is the last one, and wherever the busy message occurs
    the completion marker, and nothing else, follows it. *)
Theorem terminal_frames_end_the_stream
    (up : Upstream) (pre post : list (list N)) (frame : list N) :
  chunks (relay up) = pre ++ frame :: post ->
  (frame = TextEncoder_encode completion_marker -> post = []) /\
  (frame = TextEncoder_encode (error_chunk busy_message) ->
   post = [TextEncoder_encode completion_marker]) /\
  (forall message,
      frame = TextEncoder_encode (error_event message) -> post = []).
Proof.
  intros E.
  destruct (relay_from_shape up open_writer) as (texts & finale & R & S & _ & _).
  unfold relay in E. rewrite R in E. simpl in E.
  assert (T : forall x,
             (x = TextEncoder_encode completion_marker \/
              x = TextEncoder_encode (error_chunk busy_message) \/
              exists message, x = TextEncoder_encode (error_event message)) ->
             ~ In x (map (fun text => TextEncoder_encode (markdown_chunk text))
                         texts)).
  { intros x Hx I. apply in_map_iff in I as (text & <- & _).
    destruct Hx as [Hx|[Hx|[message Hx]]].
    - now apply (markdown_chunk_not_completion text).
    - now apply (markdown_chunk_not_busy text).
    - now apply (markdown_chunk_not_error_event text message). }
  assert (K : (frame = TextEncoder_encode completion_marker \/
               frame = TextEncoder_encode (error_chunk busy_message) \/
               exists message, frame = TextEncoder_encode (error_event message)) ->
              exists k, k ++ frame :: post = finale).
  { intros Hf. destruct (split_in_tail _ _ _ _ _ E (T frame Hf)) as (k & _ & Ek).
    now exists k. }
  split; [|split].
  - intros F. destruct (K (or_introl F)) as [k Ek]. subst frame.
    destruct S.
    + now apply unit_decompose in Ek.
    + apply pair_decompose in Ek as [(_ & Eb & _)|(_ & _ & Ep)]; [|exact Ep].
      symmetry in Eb. now destruct busy_not_completion.
    + now apply unit_decompose in Ek.
  - intros F. destruct (K (or_intror (or_introl F))) as [k Ek]. subst frame.
    destruct S.
    + apply unit_decompose in Ek as (_ & Eb & _).
      now destruct busy_not_completion.
    + apply pair_decompose in Ek as [(_ & _ & Ep)|(_ & Eb & _)]; [exact Ep|].
      now destruct busy_not_completion.
    + apply unit_decompose in Ek as (_ & Eb & _).
      now destruct (busy_not_error_event (errorMessage_of error)).
  - intros message F.
    destruct (K (or_intror (or_intror (ex_intro _ message F)))) as [k Ek].
    subst frame. destruct S.
    + now apply unit_decompose in Ek.
    + apply pair_decompose in Ek as [(_ & Eb & _)|(_ & _ & Ep)]; [|exact Ep].
      symmetry in Eb. now destruct (busy_not_error_event message).
    + now apply unit_decompose in Ek.
Qed.

End RelayProtocolProperties.

Section RelayEvents.
Context `{Platform}.

(** X3.  What the relay has written for the events seen so far is never
    taken back or changed by what comes later: the chunks written for a
    sequence begin with the chunks written for any prefix of it. *)
Theorem written_chunks_only_grow
    (pre rest : list JsValue) (stop : Ending) (w : Writer) :
  exists more,
    chunks (fst (fst (for_await (pre ++ rest) stop w))) =
    chunks (fst (fst (for_await pre Ends w))) ++ more.
Proof.
  revert w. induction pre as [|event pre IH]; intros w; simpl.
  - apply for_await_extends.
  - destruct (process_event event w) as [w' c].
    destruct c; [apply IH| |]; exists []; simpl; now rewrite List.app_nil_r.
Qed.

(** X4.  A [Formatter] event that has no first message with truthy
    content never reaches the client as text: its content is the
    serialized event, which begins with an opening brace, so the relay
    answers with the busy message and the completion marker, closes the
    stream and reads no further event. *)
Theorem event_without_message_content_is_busy
    (pre rest : list JsValue) (stop : Ending) (w0 w : Writer)
    (value : JsValue) (others : list (jsstring * JsValue)) :
  for_await pre Ends w0 = (w, Normal, []) ->
  has_message_content (JObj ((Formatter, value) :: others)) = false ->
  relay_from {| events := pre ++ JObj ((Formatter, value) :: others) :: rest;
                ending := stop |} w0 =
  ({| chunks := chunks w ++
                [TextEncoder_encode (error_chunk busy_message);
                 TextEncoder_encode completion_marker];
      closed := true |},
   rest).
Proof.
  intros P G. set (event := JObj ((Formatter, value) :: others)) in *.
  assert (C : exists body, extract_content event Formatter = JStr (123%N :: body)).
  { unfold extract_content. unfold has_message_content in G. cbv zeta in G.
    cbv zeta. rewrite G. unfold stringify_value, event.
    simpl JSON_stringify. eexists. reflexivity. }
  destruct C as [body C].
  assert (J : json_shaped (clean (123%N :: body))).
  { destruct (clean_keeps_brace body) as [r E]. rewrite E.
    exists [], 123%N, r. split; [reflexivity|]. split; [reflexivity|now left]. }
  unfold relay_from. simpl events. simpl ending.
  rewrite (for_await_app pre w0 w (event :: rest) stop P). simpl for_await.
  rewrite (process_event_busy event (map fst others) (123%N :: body) w
             eq_refl C J).
  unfold close, write. simpl. now rewrite <- List.app_assoc.
Qed.

(** X5.  An event the loop cannot process is reported and ends the
    stream: a [null] or [undefined] event, and a [Formatter] event whose
    content is not a string, make the relay write the error frame with
    the engine's TypeError message, close the stream and leave the later
    events unread. *)
Theorem malformed_event_is_reported
    (pre rest : list JsValue) (stop : Ending) (w0 w : Writer)
    (event : JsValue) :
  for_await pre Ends w0 = (w, Normal, []) ->
  let failed site :=
    relay_from {| events := pre ++ event :: rest; ending := stop |} w0 =
    ({| chunks := chunks w ++
                  [TextEncoder_encode (error_event (type_error_message site))];
        closed := true |},
     rest) in
  (event = JNull \/ event = JUndefined -> failed KeysOfNullish) /\
  (forall keys,
      Object_keys event = Some (Formatter :: keys) ->
      (forall s, extract_content event Formatter <> JStr s) ->
      failed ReplaceNotCallable).
Proof.
  intros P failed. unfold failed, relay_from. simpl events. simpl ending.
  rewrite !(for_await_app pre w0 w (event :: rest) stop P). simpl for_await.
  split.
  - intros [-> | ->]; reflexivity.
  - intros keys K C. rewrite (process_event_formatter event keys w K).
    destruct (extract_content event Formatter) as [| | | |s| |];
      try reflexivity.
    now destruct (C s).
Qed.

End RelayEvents.

(* ================================================================== *)
(** ** Content clean-up and classification *)
(* ================================================================== *)

Lemma startsWith_head_neq (c y : N) (r p : jsstring) :
  c <> y -> startsWith (c :: r) (y :: p) = false.
Proof.
  intros D. simpl. apply N.eqb_neq in D. now rewrite D.
Qed.

Lemma startsWith_app (p rest : jsstring) : startsWith (p ++ rest) p = true.
Proof.
  induction p as [|c p IH]; simpl; [now destruct rest|].
  now rewrite N.eqb_refl, IH.
Qed.

Lemma remove_opening_fences_plain (s : jsstring) :
  ~ In 96%N s -> remove_opening_fences 0 s = s.
Proof.
  induction s as [|c r IH]; intros B; [reflexivity|].
  assert (D : c <> 96%N) by (intros ->; apply B; now left).
  cbn [remove_opening_fences].
  change fence_json_newline with (96%N :: tl fence_json_newline).
  change fence_newline with (96%N :: tl fence_newline).
  rewrite !(startsWith_head_neq c 96 r _ D).
  f_equal. apply IH. intros I. apply B. now right.
Qed.

Lemma remove_opening_fences_before_fence (body : jsstring) :
  ~ In 96%N body -> remove_opening_fences 0 (body ++ fence) = body ++ fence.
Proof.
  induction body as [|c r IH]; intros B; [reflexivity|].
  assert (D : c <> 96%N) by (intros ->; apply B; now left).
  cbn [app remove_opening_fences].
  change fence_json_newline with (96%N :: tl fence_json_newline).
  change fence_newline with (96%N :: tl fence_newline).
  rewrite !(startsWith_head_neq c 96 _ _ D).
  f_equal. apply IH. intros I. apply B. now right.
Qed.

Lemma remove_closing_fence_plain (s : jsstring) :
  ~ In 96%N s -> remove_closing_fence s = s.
Proof.
  intros B. unfold remove_closing_fence, endsWith.
  destruct (rev s) as [|c r] eqn:E; [reflexivity|].
  assert (D : c <> 96%N).
  { intros ->. apply B. apply in_rev. rewrite E. now left. }
  change (rev fence) with (96%N :: [96; 96]%N).
  now rewrite (startsWith_head_neq c 96 r _ D).
Qed.

Lemma remove_closing_fence_strips (body : jsstring) :
  remove_closing_fence (body ++ fence) = body.
Proof.
  unfold remove_closing_fence, endsWith.
  rewrite rev_app_distr, startsWith_app, length_app.
  replace (List.length body + List.length fence - 3) with
    (List.length body + 0) by (change (List.length fence) with 3; lia).
  rewrite firstn_app_2. simpl. apply List.app_nil_r.
Qed.

Lemma remove_opening_fences_at_fence (tag rest : jsstring) :
  tag = lit "json" \/ tag = [] ->
  remove_opening_fences 0 (fence ++ tag ++ newline ++ rest) =
  remove_opening_fences 0 rest.
Proof.
  intros [-> | ->]; simpl; destruct rest; reflexivity.
Qed.

(** X6.  Content without a backtick passes the clean-up unchanged: the
    markdown the client receives is the text the agent produced. *)
Theorem clean_keeps_plain_text (content : jsstring) :
  ~ In 96%N content -> clean content = content.
Proof.
  intros B. unfold clean. rewrite (remove_opening_fences_plain content B).
  now apply remove_closing_fence_plain.
Qed.

(** X7.  A text wrapped in one fenced block, opened by three backticks
    with or without the [json] tag and a line break and closed by three
    backticks at the very end, is cleaned to the text inside, provided
    that text has no backtick of its own. *)
Theorem clean_unwraps_fenced_block (body : jsstring) :
  ~ In 96%N body ->
  clean (fenced (lit "json") body) = body /\
  clean (fenced [] body) = body.
Proof.
  intros B. unfold clean, fenced.
  rewrite !remove_opening_fences_at_fence by auto.
  rewrite (remove_opening_fences_before_fence body B).
  split; apply remove_closing_fence_strips.
Qed.

(** X8.  The JSON test looks at nothing but the first code unit that is
    not white space: content is classified as JSON exactly when that code
    unit is an opening brace or bracket, so blank content is not JSON and
    neither is text that merely contains a brace further on. *)
Theorem json_test_reads_first_visible_unit (content : jsstring) :
  (isJsonContent content = true <-> json_shaped content) /\
  (blank content = true -> isJsonContent content = false) /\
  (forall ws c rest,
      blank ws = true -> is_space c = false ->
      isJsonContent (ws ++ c :: rest) = ((c =? 123)%N || (c =? 91)%N)).
Proof.
  split; [apply isJsonContent_iff|]. split.
  - intros B. apply trim_empty_iff in B. unfold isJsonContent. now rewrite B.
  - intros ws c rest B S. unfold isJsonContent.
    destruct (trim_leading ws rest c B S) as [rest' ->].
    change (lit "{") with [123%N]. change (lit "[") with [91%N].
    simpl. destruct rest'; now rewrite !andb_true_r.
Qed.

(** X9.  The list of declared files never holds an empty or blank name
    and never a name with a comma in it; a parameter that is absent or
    empty declares no file. *)
Theorem declared_files_are_proper_names (param : option jsstring) :
  (param = None \/ param = Some [] -> parse_uploadedFiles param = []) /\
  (forall file,
      In file (parse_uploadedFiles param) ->
      file <> [] /\ blank file = false /\ ~ In 44%N file).
Proof.
  split.
  - intros [-> | ->]; reflexivity.
  - intros file I. unfold parse_uploadedFiles in I.
    destruct (provided param); [|now destruct I].
    apply filter_In in I as [S T]. rewrite trim_test in T.
    apply negb_true_iff in T. split; [|split; [exact T|]].
    + intros ->. discriminate.
    + pose proof (split_no_separator 44 (narrowed param)) as F.
      rewrite Forall_forall in F. now apply F.
Qed.

(* ================================================================== *)
(** ** The frames as server-sent events *)
(* ================================================================== *)


Lemma hex_digit_inline (n : N) : inline (hex_digit n).
Proof.
  unfold inline, hex_digit. destruct (n <? 10)%N; split; lia.
Qed.

Lemma unicode_escape_inline (c x : N) : In x (unicode_escape c) -> inline x.
Proof.
  unfold unicode_escape. change (lit "\u") with [92%N; 117%N]. simpl.
  intros [<-|[<-|[<-|[<-|[<-|[<-|[]]]]]]];
    try apply hex_digit_inline; split; discriminate.
Qed.

(** [JSON.stringify] never leaves a line break in a string: it writes
    the two characters of the escape instead. *)
Lemma json_escape_inline (n : nat) :
  forall (s : jsstring) (x : N),
    List.length s <= n -> In x (json_escape s) -> inline x.
Proof.
  induction n as [|n IH]; intros s x L I.
  - destruct s; [destruct I|simpl in L; lia].
  - destruct s as [|c r]; [destruct I|]. simpl in L.
    assert (IHr : In x (json_escape r) -> inline x)
      by (apply IH; lia).
    assert (U : In x (unicode_escape c ++ json_escape r) -> inline x).
    { intros J. apply in_app_iff in J as [J|J];
        [now apply (unicode_escape_inline c)|now apply IHr]. }
    assert (Two : forall a b, In x ([a; b] ++ json_escape r) ->
                              inline a -> inline b -> inline x).
    { intros a b J Ha Hb. destruct J as [<-|[<-|J]]; auto. }
    cbn [json_escape] in I.
    destruct (c =? 8)%N;
      [apply (Two 92%N 98%N I); split; discriminate|].
    destruct (c =? 9)%N;
      [apply (Two 92%N 116%N I); split; discriminate|].
    destruct (c =? 10)%N;
      [apply (Two 92%N 110%N I); split; discriminate|].
    destruct (c =? 12)%N;
      [apply (Two 92%N 102%N I); split; discriminate|].
    destruct (c =? 13)%N;
      [apply (Two 92%N 114%N I); split; discriminate|].
    destruct (c =? 34)%N;
      [apply (Two 92%N 34%N I); split; discriminate|].
    destruct (c =? 92)%N;
      [apply (Two 92%N 92%N I); split; discriminate|].
    destruct (c <? 32)%N eqn:Lt; [now apply U|].
    apply N.ltb_ge in Lt.
    destruct (is_high c) eqn:Hh.
    + destruct r as [|d r']; [now apply (unicode_escape_inline c)|].
      destruct (is_low d) eqn:Hl; [|now apply U].
      unfold is_low in Hl. apply andb_true_iff in Hl as [Hl _].
      apply N.leb_le in Hl.
      destruct I as [<-|[<-|I]]; [split; lia|split; lia|].
      apply (IH r' x); [simpl in L; lia|exact I].
    + destruct (is_low c); [now apply U|].
      destruct I as [<-|I]; [split; lia|now apply IHr].
Qed.

Lemma json_escape_all_inline (s : jsstring) : Forall inline (json_escape s).
Proof.
  apply Forall_forall. intros x.
  now apply (json_escape_inline (List.length s) s x).
Qed.

Lemma closed_inline (l : jsstring) : forallb inlineb l = true -> Forall inline l.
Proof.
  intros F. apply Forall_forall. intros x I.
  rewrite forallb_forall in F. specialize (F x I). unfold inlineb in F.
  apply andb_true_iff in F as [A B].
  apply negb_true_iff in A, B. apply N.eqb_neq in A, B. now split.
Qed.

(** The payload of a frame, cut into its pieces, has no line break. *)
Ltac inline_pieces :=
  unfold stringify_text; cbn [JSON_stringify]; unfold json_quote; cbn [join];
  rewrite <- !List.app_assoc;
  repeat (apply Forall_app; split);
  solve [apply closed_inline; reflexivity | apply json_escape_all_inline].

(** X10.  Every frame the relay writes is one well-formed server-sent
    event: after the [data: ] field name comes a payload without any line
    break, whatever the text it carries, and then the blank line that
    ends the event. *)
Theorem frames_carry_one_data_line (content : jsstring) :
  (exists payload,
      markdown_chunk content = lit "data: " ++ payload ++ newline ++ newline /\
      Forall inline payload) /\
  (exists payload,
      error_chunk content = lit "data: " ++ payload ++ newline ++ newline /\
      Forall inline payload) /\
  (exists payload,
      error_event content =
      lit "event: error" ++ newline ++ lit "data: " ++ payload ++
      newline ++ newline /\
      Forall inline payload).
Proof.
  split; [|split]; eexists; (split; [reflexivity|]); inline_pieces.
Qed.

(* ================================================================== *)
(** ** GET: what reaches the service, and what is answered *)
(* ================================================================== *)

Lemma provided_narrowed (p : option jsstring) :
  provided p = true -> p = Some (narrowed p) /\ narrowed p <> [].
Proof.
  destruct p as [[|c r]|]; simpl; try discriminate.
  intros _. split; [reflexivity|discriminate].
Qed.

Lemma internal_error_answers `{Platform} (e : Thrown) (fallback : jsstring) :
  fallback <> [] ->
  (exists message,
      internal_error e fallback =
      JsonResponse 500 (JObj [(lit "message", message)]) /\
      truthy message = true) \/
  (e = ThrownValue JNull /\
   internal_error e fallback = Unhandled (TypeError MessageOfNull)) \/
  (e = ThrownValue JUndefined /\
   internal_error e fallback = Unhandled (TypeError MessageOfUndefined)).
Proof.
  intros F. unfold internal_error, message_or.
  assert (T : truthy (JStr fallback) = true)
    by (destruct fallback; [now destruct F|reflexivity]).
  destruct e as [m|v].
  - left. destruct (truthy (JStr m)) eqn:E; eauto.
  - destruct v;
      try (right; right; split; reflexivity);
      try (right; left; split; reflexivity);
      left; match goal with
            | |- context [js_get ?v ?k] =>
                destruct (truthy (js_get v k)) eqn:E; eauto
            end.
Qed.

Section GetProperties.
Context `{Platform}.
Variable generateQuestions : GenerationRequest -> FS -> Thrown + GenerationResult.

Lemma GET_validate_cases (sp : list (jsstring * jsstring)) (fs : FS) :
  (provided (header_of sp) && provided (description_of sp)
   && provided (key_of sp) = false /\
   exists body, GET_validate sp fs = inl (JsonResponse 400 body)) \/
  (provided (header_of sp) = true /\ provided (description_of sp) = true /\
   provided (key_of sp) = true /\
   (GET_validate sp fs = inl (JsonResponse 400 files_not_found_body) \/
    exists request,
      GET_validate sp fs = inr request /\
      questionHeader request = narrowed (header_of sp) /\
      questionDescription request = narrowed (description_of sp) /\
      apiKey request = narrowed (key_of sp) /\
      modelName request =
      (if provided (searchParams_get sp (lit "modelName"))
       then narrowed (searchParams_get sp (lit "modelName"))
       else default_model) /\
      uploadedFiles request =
      existing_files fs
        (parse_uploadedFiles (searchParams_get sp (lit "uploadedFiles"))))).
Proof.
  destruct (provided (header_of sp) && provided (description_of sp)
            && provided (key_of sp)) eqn:G.
  - right. apply andb_true_iff in G as [G H3].
    apply andb_true_iff in G as [H1 H2].
    split; [exact H1|]. split; [exact H2|]. split; [exact H3|].
    rewrite (GET_validate_passed sp fs H1 H2 H3).
    destruct (parse_uploadedFiles (searchParams_get sp (lit "uploadedFiles")))
      as [|f l] eqn:D.
    + right. eexists. split; [reflexivity|]. now repeat split.
    + destruct (existing_files fs (f :: l)) as [|g m] eqn:E; [now left|].
      right. eexists. split; [reflexivity|]. now repeat split.
  - left. split; [reflexivity|].
    destruct (GET_validate_missing sp fs G) as (model & V & _). eauto.
Qed.

(** X11.  Whatever the query, a request that reaches the generation
    service is well formed: its header, description and key are the
    first values given in the query and none is empty, its model name
    is never empty and is the default model when the query gives none or
    an empty one, and every file it lists was declared in the query and
    exists, at that moment, at the path that joins the scratch directory
    and its name (a name with [..] in it can lead out of the
    directory). *)
Theorem service_request_is_well_formed
    (sp : list (jsstring * jsstring)) (fs : FS) (request : GenerationRequest) :
  GET_validate sp fs = inr request ->
  (searchParams_get sp (lit "questionHeader") = Some (questionHeader request) /\
   questionHeader request <> []) /\
  (searchParams_get sp (lit "questionDescription") =
   Some (questionDescription request) /\
   questionDescription request <> []) /\
  (searchParams_get sp (lit "apiKey") = Some (apiKey request) /\
   apiKey request <> []) /\
  modelName request <> [] /\
  (provided (searchParams_get sp (lit "modelName")) = false ->
   modelName request = default_model) /\
  (forall file,
      In file (uploadedFiles request) ->
      In file (parse_uploadedFiles (searchParams_get sp (lit "uploadedFiles"))) /\
      fs_existsSync fs (path_join tempDir file) = true).
Proof.
  intros V.
  destruct (GET_validate_cases sp fs) as [(_ & body & E)|(H1 & H2 & H3 & C)];
    [rewrite E in V; discriminate|].
  destruct C as [E|(r & E & Eh & Ed & Ek & Em & Ef)];
    [rewrite E in V; discriminate|].
  rewrite E in V. injection V as <-.
  rewrite Eh, Ed, Ek, Em, Ef.
  split; [exact (provided_narrowed _ H1)|].
  split; [exact (provided_narrowed _ H2)|].
  split; [exact (provided_narrowed _ H3)|].
  split; [|split].
  - destruct (provided (searchParams_get sp (lit "modelName"))) eqn:M.
    + exact (proj2 (provided_narrowed _ M)).
    + discriminate.
  - now intros ->.
  - intros file I. unfold existing_files in I. now apply filter_In in I.
Qed.

(** X12.  The generation endpoint answers in one of three ways only: a
    JSON body with status 400 or 500, or the event stream with the
    headers [Content-Type: text/event-stream], [Cache-Control: no-cache]
    and [Connection: keep-alive], whose body is closed once the
    service's sequence has ended or raised.  An exception escapes the
    handler only when the service rejects with [null] or with
    [undefined], and it is then the engine's TypeError for that value.
    A 400 leaves the scratch directory as it was, and so does a call to
    the service that is rejected: the staged files are removed only once
    the service has answered. *)
Theorem GET_answers (sp : list (jsstring * jsstring)) (fs : FS) :
  match GET generateQuestions sp fs with
  | (JsonResponse status _, fs') => (status = 400%N /\ fs' = fs) \/ status = 500%N
  | (StreamResponse headers body, _) =>
      headers = [(wire "Content-Type", wire "text/event-stream");
                 (wire "Cache-Control", wire "no-cache");
                 (wire "Connection", wire "keep-alive")] /\
      closed body = true
  | (Unhandled e, fs') =>
      fs' = fs /\
      exists request,
        GET_validate sp fs = inr request /\
        ((generateQuestions request fs = inl (ThrownValue JNull) /\
          e = TypeError MessageOfNull) \/
         (generateQuestions request fs = inl (ThrownValue JUndefined) /\
          e = TypeError MessageOfUndefined))
  end /\
  (forall request e,
      GET_validate sp fs = inr request ->
      generateQuestions request fs = inl e ->
      snd (GET generateQuestions sp fs) = fs).
Proof.
  split.
  - unfold GET.
    destruct (GET_validate_cases sp fs)
      as [(_ & body & E)|(_ & _ & _ & [E|(r & E & _)])];
      rewrite E; [left; now split|left; now split|].
    unfold GET_generate. destruct (generateQuestions r fs) as [e|result] eqn:G.
    + destruct (internal_error_answers e (lit "Failed to generate questions"))
        as [(m & -> & _)|[(-> & ->)|(-> & ->)]]; [discriminate|now right| |].
      * split; [reflexivity|]. exists r. split; [reflexivity|]. left. now split.
      * split; [reflexivity|]. exists r. split; [reflexivity|]. right. now split.
    + destruct (stream result) as [up|]; [|now right].
      split; [exact event_stream_headers_sent|].
      destruct (relay_from_shape up open_writer) as (texts & finale & R & _).
      unfold relay. now rewrite R.
  - intros request e V G. unfold GET. rewrite V. unfold GET_generate.
    now rewrite G.
Qed.

End GetProperties.

(** X13.  The [catch] clause of both handlers answers status 500 with a
    message that is never empty: the thrown error's own message when it
    has one, the handler's fixed text otherwise.  Only a thrown [null] or
    [undefined] escapes the handler. *)
Theorem server_error_carries_a_message `{Platform}
    (e : Thrown) (fallback : jsstring) :
  fallback <> [] ->
  match internal_error e fallback with
  | JsonResponse status body =>
      status = 500%N /\
      exists message,
        body = JObj [(lit "message", message)] /\
        truthy message = true /\
        (forall text, e = ThrownError text ->
                      message = JStr (if eqb text [] then fallback else text))
  | StreamResponse _ _ => False
  | Unhandled _ => e = ThrownValue JNull \/ e = ThrownValue JUndefined
  end.
Proof.
  intros F. unfold internal_error, message_or.
  assert (T : truthy (JStr fallback) = true)
    by (destruct fallback; [now destruct F|reflexivity]).
  destruct e as [m|v].
  - split; [reflexivity|]. eexists. split; [reflexivity|]. split.
    + destruct m; [exact T|reflexivity].
    + intros text E. injection E as <-. now destruct m.
  - destruct v; try (now left); try (now right);
      (split; [reflexivity|]; eexists; split; [reflexivity|]; split;
       [|discriminate]);
      match goal with
      | |- context [js_get ?v ?k] =>
          destruct (truthy (js_get v k)) eqn:E; [exact E|exact T]
      end.
Qed.

(* ================================================================== *)
(** ** GET: removal of the processed files *)
(* ================================================================== *)

Section Cleanup.
Context `{Platform}.
Hypothesis removes : unlink_removes.
Hypothesis keeps : unlink_keeps_others.

Lemma delete_step_others (fs : FS) (p q : jsstring) :
  q <> p ->
  fs_existsSync
    (if fs_existsSync fs p
     then match fs_unlinkSync fs p with inr fs1 => fs1 | inl _ => fs end
     else fs) q = fs_existsSync fs q.
Proof.
  intros D. destruct (fs_existsSync fs p); [|reflexivity].
  destruct (fs_unlinkSync fs p) as [e|fs1] eqn:U; [reflexivity|].
  exact (keeps fs fs1 p q U D).
Qed.

Lemma delete_processed_stays_gone (files : list jsstring) :
  forall (fs : FS) (q : jsstring),
    fs_existsSync fs q = false ->
    fs_existsSync (delete_processed files fs) q = false.
Proof.
  induction files as [|file files IH]; intros fs q G; [exact G|].
  simpl delete_processed. apply IH.
  destruct (fs_existsSync fs (path_join tempDir file)) eqn:E; [|exact G].
  destruct (fs_unlinkSync fs (path_join tempDir file)) as [e|fs1] eqn:U;
    [exact G|].
  destruct (eqb q (path_join tempDir file)) eqn:Q.
  - apply eqb_eq in Q. subst q. exact (removes _ _ _ U).
  - apply eqb_neq in Q. now rewrite (keeps _ _ _ _ U Q).
Qed.

(** X14.  Removing the processed files touches no path but theirs: a
    path that is not the join of the scratch directory with the name of
    one of the request's files exists afterwards exactly if it existed
    before.  (The join of a name with [..] in it can lie outside the
    scratch directory.) *)
Theorem cleanup_touches_only_processed_files
    (files : list jsstring) (fs : FS) (q : jsstring) :
  ~ In q (map (path_join tempDir) files) ->
  fs_existsSync (delete_processed files fs) q = fs_existsSync fs q.
Proof.
  revert fs. induction files as [|file files IH]; intros fs N; [reflexivity|].
  simpl delete_processed. rewrite IH by (intros I; apply N; now right).
  apply delete_step_others. intros ->. apply N. now left.
Qed.

(** X15.  A processed file whose removal does not throw is not left in
    the scratch directory, whatever happens to the other files of the
    list: a removal that fails for one file does not keep the loop from
    removing the others, and a file named twice is handled as well. *)
Theorem cleanup_removes_processed_files
    (files : list jsstring) (fs : FS) (file : jsstring) :
  unlink_succeeds_on (path_join tempDir file) ->
  In file files ->
  fs_existsSync (delete_processed files fs) (path_join tempDir file) = false.
Proof.
  intros succeeds. revert fs.
  induction files as [|f files IH]; intros fs I; [destruct I|].
  simpl delete_processed. destruct I as [->|I]; [|now apply IH].
  apply delete_processed_stays_gone.
  destruct (fs_existsSync fs (path_join tempDir file)) eqn:E; [|exact E].
  destruct (succeeds fs E) as [fs1 U]. rewrite U.
  exact (removes _ _ _ U).
Qed.

End Cleanup.

(* ================================================================== *)
(** ** POST: what is staged, and when it stops *)
(* ================================================================== *)

Lemma of_uint_inj (d d' : Decimal.uint) : of_uint d = of_uint d' -> d = d'.
Proof.
  revert d'. induction d; intros d' E; destruct d'; simpl in E;
    try discriminate; try reflexivity;
    injection E as E; f_equal; now apply IHd.
Qed.

Lemma of_N_inj (n m : N) : of_N n = of_N m -> n = m.
Proof.
  intros E. apply DecimalN.Unsigned.to_uint_inj. now apply of_uint_inj.
Qed.

Section UploadEdges.
Context `{Platform}.
Variable Date_now : nat -> N.

Lemma store_entries_app (pre : list (jsstring * FormValue)) :
  forall (rest : list (jsstring * FormValue)) (fs fs1 : FS) (tick : nat)
         (uploaded names : list jsstring),
    store_entries Date_now pre fs tick uploaded = (fs1, inr names) ->
    store_entries Date_now (pre ++ rest) fs tick uploaded =
    store_entries Date_now rest fs1
      (tick + (List.length names - List.length uploaded)) names /\
    List.length uploaded <= List.length names.
Proof.
  induction pre as [|[key value] pre IH]; simpl;
    intros rest fs fs1 tick uploaded names E.
  - injection E as <- <-. split; [f_equal; lia|lia].
  - destruct (if startsWith key (lit "file-") then as_file value else None)
      as [[name bytes]|]; [|now apply IH].
    destruct (store Date_now fs tick name bytes) as [fs' [e|filename]];
      [discriminate|].
    destruct (IH rest _ _ _ _ _ E) as [E' L]. rewrite E'.
    rewrite length_app in *. simpl in *. split; [f_equal; lia|lia].
Qed.

(** X16.  A form without any [File] under a [file-] key, the empty form
    included, is answered with status 200 and an empty list of names, and
    the file system is not touched: not even the scratch directory is
    created. *)
Theorem upload_without_files_stages_nothing
    (entries : list (jsstring * FormValue)) (fs : FS) :
  forallb (fun entry => negb (staged entry)) entries = true ->
  POST Date_now (inr entries) fs =
  (JsonResponse 200
     (JObj [(lit "message", JStr (lit "success"));
            (lit "uploadedFiles", JArr [])]),
   fs).
Proof.
  intros N. unfold POST.
  assert (E : forall tick uploaded,
             store_entries Date_now entries fs tick uploaded =
             (fs, inr uploaded)).
  { induction entries as [|[key value] rest IH]; intros tick uploaded;
      [reflexivity|].
    simpl in N. apply andb_true_iff in N as [N1 N2].
    unfold staged in N1. simpl in N1. simpl.
    destruct (if startsWith key (lit "file-") then as_file value else None)
      as [[name bytes]|]; [discriminate|]. now apply IH. }
  now rewrite E.
Qed.

(** X17.  Two staged files with the same extension get the same name
    exactly when their clock readings are the same millisecond: nothing
    but the timestamp keeps the names apart. *)
Theorem staged_names_differ_by_timestamp_only
    (tick tick' : nat) (name name' : jsstring) :
  path_extname name = path_extname name' ->
  (generated_filename (Date_now tick) (path_extname name) =
   generated_filename (Date_now tick') (path_extname name') <->
   Date_now tick = Date_now tick').
Proof.
  intros E. unfold generated_filename. rewrite E. split.
  - intros A. apply app_inv_tail in A. now apply of_N_inj.
  - now intros ->.
Qed.

(** X18.  The upload stops at the first file that cannot be stored: the
    answer is the 500 of that error, no name is reported although the
    files before it have been written, and the entries after it are not
    looked at. *)
Theorem upload_stops_at_first_failure
    (pre rest : list (jsstring * FormValue)) (fs fs1 fs2 : FS)
    (names : list jsstring) (key name : jsstring) (bytes : list N)
    (e : Thrown) :
  store_entries Date_now pre fs 0 [] = (fs1, inr names) ->
  startsWith key (lit "file-") = true ->
  store Date_now fs1 (List.length names) name bytes = (fs2, inl e) ->
  POST Date_now (inr (pre ++ (key, FormFile name bytes) :: rest)) fs =
  (internal_error e (lit "Failed to process request"), fs2).
Proof.
  intros P K S. unfold POST.
  destruct (store_entries_app pre ((key, FormFile name bytes) :: rest)
              fs fs1 0 [] names P) as [E _].
  rewrite E. simpl. rewrite K. simpl.
  replace (List.length names - 0) with (List.length names) by lia.
  now rewrite S.
Qed.

End UploadEdges.

(* ================================================================== *)
(** ** The further properties on sample inputs *)
(* ================================================================== *)

Lemma filter_removes (p : jsstring) (fs : list jsstring) :
  existsb (eqb p) (filter (fun q => negb (eqb p q)) fs) = false.
Proof.
  induction fs as [|a fs IH]; simpl; [reflexivity|].
  destruct (eqb p a) eqn:E; simpl; [exact IH|]. now rewrite E.
Qed.

Lemma filter_keeps (p q : jsstring) (fs : list jsstring) :
  q <> p ->
  existsb (eqb q) (filter (fun x => negb (eqb p x)) fs) = existsb (eqb q) fs.
Proof.
  intros D. induction fs as [|a fs IH]; simpl; [reflexivity|].
  destruct (eqb p a) eqn:E; simpl.
  - apply eqb_eq in E. subst a.
    assert (Q : eqb q p = false) by now apply eqb_neq.
    now rewrite Q.
  - now rewrite IH.
Qed.

Lemma guarded_unlink_removes : @unlink_removes Sample.guarded.
Proof.
  intros fs fs' p. simpl.
  destruct (eqb p Sample.locked_path); [discriminate|].
  intros E. injection E as <-. apply filter_removes.
Qed.

Lemma guarded_unlink_keeps_others : @unlink_keeps_others Sample.guarded.
Proof.
  intros fs fs' p q. simpl.
  destruct (eqb p Sample.locked_path); [discriminate|].
  intros E D. injection E as <-. now apply filter_keeps.
Qed.

Module ExtraSamples.
Import Sample.

Lemma terminal_frames_end_the_stream_witness :
  chunks (relay json_stream) =
  [TextEncoder_encode (markdown_chunk (lit "Q1"))] ++
  TextEncoder_encode (error_chunk busy_message) ::
  [TextEncoder_encode completion_marker] /\
  [TextEncoder_encode completion_marker] = [TextEncoder_encode completion_marker].
Proof.
  assert (E : chunks (relay json_stream) =
              [TextEncoder_encode (markdown_chunk (lit "Q1"))] ++
              TextEncoder_encode (error_chunk busy_message) ::
              [TextEncoder_encode completion_marker])
    by (vm_compute; reflexivity).
  split; [exact E|].
  exact (proj1 (proj2 (terminal_frames_end_the_stream json_stream _ _ _ E))
           eq_refl).
Defined.

Lemma event_without_message_content_is_busy_witness :
  has_message_content result_only_event = false /\
  relay_from {| events := before_json ++ result_only_event :: after_json;
                ending := Ends |} open_writer =
  ({| chunks := [TextEncoder_encode (markdown_chunk (lit "Q1"));
                 TextEncoder_encode (error_chunk busy_message);
                 TextEncoder_encode completion_marker];
      closed := true |},
   after_json).
Proof.
  split; [reflexivity|].
  exact (event_without_message_content_is_busy before_json after_json Ends
           open_writer
           (write (TextEncoder_encode (markdown_chunk (lit "Q1"))) open_writer)
           (JObj [(lit "analysisResult", JStr (lit "R"))]) []
           ltac:(vm_compute; reflexivity) eq_refl).
Defined.

Lemma malformed_event_is_reported_witness :
  relay_from {| events := before_json ++ JNull :: after_json; ending := Ends |}
    open_writer =
  ({| chunks := [TextEncoder_encode (markdown_chunk (lit "Q1"));
                 TextEncoder_encode
                   (error_event (lit "Cannot convert undefined or null to object"))];
      closed := true |},
   after_json).
Proof.
  exact (proj1 (malformed_event_is_reported before_json after_json Ends
                  open_writer
                  (write (TextEncoder_encode (markdown_chunk (lit "Q1")))
                     open_writer)
                  JNull ltac:(vm_compute; reflexivity))
           (or_introl eq_refl)).
Defined.

Lemma clean_keeps_plain_text_witness :
  ~ In 96%N (lit "Q1") /\ clean (lit "Q1") = lit "Q1".
Proof.
  assert (B : ~ In 96%N (lit "Q1")) by (vm_compute; intuition discriminate).
  split; [exact B|]. exact (clean_keeps_plain_text (lit "Q1") B).
Defined.

Lemma clean_unwraps_fenced_block_witness :
  ~ In 96%N (lit "Q1" ++ newline) /\
  clean (fenced (lit "json") (lit "Q1" ++ newline)) = lit "Q1" ++ newline.
Proof.
  assert (B : ~ In 96%N (lit "Q1" ++ newline))
    by (vm_compute; intuition discriminate).
  split; [exact B|].
  exact (proj1 (clean_unwraps_fenced_block (lit "Q1" ++ newline) B)).
Defined.

Lemma json_test_reads_first_visible_unit_witness :
  blank [32%N; 10%N] = true /\
  isJsonContent ([32%N; 10%N] ++ 91%N :: lit "1]") = true.
Proof.
  split; [reflexivity|].
  exact (proj2 (proj2 (json_test_reads_first_visible_unit []))
           [32%N; 10%N] 91%N (lit "1]") eq_refl eq_refl).
Defined.

Lemma declared_files_are_proper_names_witness :
  In (lit " a.txt ") (parse_uploadedFiles (Some (lit " a.txt ,  ,b.txt"))) /\
  blank (lit " a.txt ") = false.
Proof.
  assert (I : In (lit " a.txt ")
                (parse_uploadedFiles (Some (lit " a.txt ,  ,b.txt"))))
    by (vm_compute; now left).
  split; [exact I|].
  exact (proj1 (proj2 (proj2 (declared_files_are_proper_names _) _ I))).
Defined.

Lemma service_request_is_well_formed_witness :
  GET_validate (H:=platform) with_files scratch =
  inr {| questionHeader := lit "Exam";
         questionDescription := lit "Chapter 3";
         apiKey := lit "k";
         uploadedFiles := [lit " a.txt "];
         modelName := default_model |} /\
  fs_existsSync scratch (path_join tempDir (lit " a.txt ")) = true.
Proof.
  assert (V : GET_validate (H:=platform) with_files scratch =
              inr {| questionHeader := lit "Exam";
                     questionDescription := lit "Chapter 3";
                     apiKey := lit "k";
                     uploadedFiles := [lit " a.txt "];
                     modelName := default_model |})
    by (vm_compute; reflexivity).
  split; [exact V|].
  destruct (service_request_is_well_formed (H:=platform) with_files scratch _ V)
    as (_ & _ & _ & _ & _ & F).
  exact (proj2 (F (lit " a.txt ") (or_introl eq_refl))).
Defined.

Lemma GET_answers_witness :
  GET_validate (H:=platform) plain_query scratch =
  inr {| questionHeader := lit "Exam";
         questionDescription := lit "Chapter 3";
         apiKey := lit "k";
         uploadedFiles := [];
         modelName := default_model |} /\
  snd (GET (H:=platform) rejecting plain_query scratch) = scratch.
Proof.
  assert (V : GET_validate (H:=platform) plain_query scratch =
              inr {| questionHeader := lit "Exam";
                     questionDescription := lit "Chapter 3";
                     apiKey := lit "k";
                     uploadedFiles := [];
                     modelName := default_model |})
    by (vm_compute; reflexivity).
  split; [exact V|].
  exact (proj2 (GET_answers (H:=platform) rejecting plain_query scratch)
           _ (ThrownError (lit "quota exceeded")) V eq_refl).
Defined.

Lemma server_error_carries_a_message_witness :
  lit "Failed to generate questions" <> [] /\
  internal_error (H:=platform) (ThrownError []) (lit "Failed to generate questions") =
  JsonResponse 500
    (JObj [(lit "message", JStr (lit "Failed to generate questions"))]).
Proof.
  assert (F : lit "Failed to generate questions" <> []) by discriminate.
  split; [exact F|].
  pose proof (server_error_carries_a_message (H:=platform) (ThrownError [])
                (lit "Failed to generate questions") F) as S.
  simpl in S. destruct S as (_ & message & B & _ & M).
  rewrite B, (M [] eq_refl). reflexivity.
Defined.

Lemma cleanup_touches_only_processed_files_witness :
  ~ In (lit "/app/temp/other.txt")
       (map (path_join (Platform:=guarded) (tempDir (H:=guarded))) processed) /\
  fs_existsSync (Platform:=guarded)
    (delete_processed (H:=guarded) processed guarded_scratch)
    (lit "/app/temp/other.txt") = true.
Proof.
  assert (N : ~ In (lit "/app/temp/other.txt")
                (map (path_join (Platform:=guarded) (tempDir (H:=guarded)))
                     processed))
    by (vm_compute; intuition discriminate).
  split; [exact N|].
  rewrite (cleanup_touches_only_processed_files (H:=guarded)
             guarded_unlink_keeps_others processed guarded_scratch _ N).
  reflexivity.
Defined.

Lemma cleanup_removes_processed_files_witness :
  unlink_succeeds_on (H:=guarded) (lit "/app/temp/a.txt") /\
  fs_existsSync (Platform:=guarded)
    (delete_processed (H:=guarded) processed guarded_scratch)
    (lit "/app/temp/a.txt") = false /\
  fs_existsSync (Platform:=guarded)
    (delete_processed (H:=guarded) processed guarded_scratch)
    locked_path = true.
Proof.
  assert (S : unlink_succeeds_on (H:=guarded) (lit "/app/temp/a.txt")).
  { intros fs _. eexists. reflexivity. }
  split; [exact S|]. split; [|reflexivity].
  exact (cleanup_removes_processed_files (H:=guarded) guarded_unlink_removes
           guarded_unlink_keeps_others processed guarded_scratch (lit "a.txt")
           S (or_intror (or_introl eq_refl))).
Defined.

Lemma upload_without_files_stages_nothing_witness :
  forallb (fun entry => negb (staged entry)) no_files = true /\
  POST (H:=platform) clock (inr no_files) [] =
  (JsonResponse 200
     (JObj [(lit "message", JStr (lit "success"));
            (lit "uploadedFiles", JArr [])]),
   []).
Proof.
  split; [reflexivity|].
  exact (upload_without_files_stages_nothing (H:=platform) clock no_files []
           eq_refl).
Defined.

Lemma staged_names_differ_by_timestamp_only_witness :
  path_extname (lit "a.pdf") = path_extname (lit "b.pdf") /\
  (generated_filename (clock 0) (path_extname (lit "a.pdf")) =
   generated_filename (clock 1) (path_extname (lit "b.pdf")) ->
   clock 0 = clock 1).
Proof.
  split; [reflexivity|].
  exact (proj1 (staged_names_differ_by_timestamp_only (H:=platform) clock
                  0 1 (lit "a.pdf") (lit "b.pdf") eq_refl)).
Defined.

Lemma upload_stops_at_first_failure_witness :
  store_entries (H:=full_disk) clock
    [(lit "file-0", FormFile (lit "notes.pdf") [37; 80; 68; 70]%N);
     (lit "comment", FormString (lit "hello"))] [] 0 [] =
  ([lit "/app/temp/1700000000000.pdf"; lit "/app/temp"],
   inr [lit "1700000000000.pdf"]) /\
  POST (H:=full_disk) clock (inr upload) [] =
  (JsonResponse 500 (JObj [(lit "message", JStr (lit "ENOSPC"))]),
   [lit "/app/temp/1700000000000.pdf"; lit "/app/temp"]).
Proof.
  split; [vm_compute; reflexivity|].
  exact (upload_stops_at_first_failure (H:=full_disk) clock
           [(lit "file-0", FormFile (lit "notes.pdf") [37; 80; 68; 70]%N);
            (lit "comment", FormString (lit "hello"))]
           [] [] [lit "/app/temp/1700000000000.pdf"; lit "/app/temp"]
           [lit "/app/temp/1700000000000.pdf"; lit "/app/temp"]
           [lit "1700000000000.pdf"] (lit "file-1")
           (lit "syllabus.final.txt") [104; 105]%N
           (ThrownError (lit "ENOSPC"))
           ltac:(vm_compute; reflexivity) eq_refl
           ltac:(vm_compute; reflexivity)).
Defined.

End ExtraSamples.

(* ================================================================== *)
(** ** From the upload to the generation request *)
(* ================================================================== *)

Lemma split_plain (sep : N) (part : jsstring) :
  ~ In sep part -> split sep part = [part].
Proof.
  induction part as [|c r IH]; intros B; [reflexivity|].
  simpl. assert (D : (c =? sep)%N = false)
    by (apply N.eqb_neq; intros ->; apply B; now left).
  rewrite D, IH; [reflexivity|]. intros I. apply B. now right.
Qed.

Lemma split_at_separator (sep : N) (part rest : jsstring) :
  ~ In sep part -> split sep (part ++ sep :: rest) = part :: split sep rest.
Proof.
  induction part as [|c r IH]; intros B; simpl.
  - now rewrite N.eqb_refl.
  - assert (D : (c =? sep)%N = false)
      by (apply N.eqb_neq; intros ->; apply B; now left).
    rewrite D, IH; [reflexivity|]. intros I. apply B. now right.
Qed.

Lemma split_join (sep : N) (parts : list jsstring) :
  parts <> [] ->
  Forall (fun part => ~ In sep part) parts ->
  split sep (join [sep] parts) = parts.
Proof.
  intros N F. induction F as [|part parts B F IH]; [now destruct N|].
  destruct parts as [|next parts]; simpl.
  - now apply split_plain.
  - rewrite (split_at_separator sep part _ B). f_equal.
    apply IH. discriminate.
Qed.

Lemma generated_filename_visible (timestamp : N) (ext : jsstring) :
  blank (generated_filename timestamp ext) = false.
Proof.
  unfold generated_filename. destruct (of_N_digits timestamp) as [N D].
  destruct (of_N timestamp) as [|d ds]; [now destruct N|].
  simpl in D. apply andb_true_iff in D as [Hd _]. simpl.
  assert (S : is_space d = false).
  { unfold is_digit in Hd. apply andb_true_iff in Hd as [A B].
    apply N.leb_le in A, B. unfold is_space.
    repeat (apply orb_false_iff; split);
      try (apply N.eqb_neq; lia);
      apply andb_false_iff;
      ((left; apply N.leb_gt; lia) || (right; apply N.leb_gt; lia)). }
  now rewrite S.
Qed.

Section RoundTrip.
Context `{Platform}.
Variable Date_now : nat -> N.

Lemma expected_names_visible (entries : list (jsstring * FormValue)) :
  forall tick,
    Forall (fun name => blank name = false)
           (expected_names Date_now entries tick).
Proof.
  induction entries as [|[key value] rest IH]; intros tick; simpl;
    [constructor|].
  destruct (if startsWith key (lit "file-") then as_file value else None)
    as [[name bytes]|]; [|apply IH].
  constructor; [|apply IH].
  apply (generated_filename_visible (Date_now tick) (path_extname name)).
Qed.

(** X19.  The names a successful upload returns come back unchanged
    when they are sent, joined by commas, as the [uploadedFiles]
    parameter: the generation endpoint declares exactly those names, in
    the same order, provided that no name has a comma in it (which only
    an extension with a comma can bring). *)
Theorem uploaded_names_are_read_back
    (entries : list (jsstring * FormValue)) (fs fs' : FS)
    (names : list jsstring) :
  POST Date_now (inr entries) fs =
  (JsonResponse 200
     (JObj [(lit "message", JStr (lit "success"));
            (lit "uploadedFiles", JArr (map JStr names))]),
   fs') ->
  Forall (fun name => ~ In 44%N name) names ->
  parse_uploadedFiles (Some (join [44%N] names)) = names.
Proof.
  intros P C.
  assert (V : Forall (fun name => blank name = false) names).
  { unfold POST in P.
    destruct (store_entries Date_now entries fs 0 []) as [fs1 [e|stored]] eqn:S.
    - unfold internal_error in P.
      destruct (message_or e (lit "Failed to process request")); discriminate.
    - apply store_entries_names in S. simpl in S. subst stored.
      injection P as P _.
      assert (I : forall l l' : list jsstring, map JStr l = map JStr l' -> l = l').
      { induction l as [|a l IHl]; intros [|b l'] E; try discriminate;
          [reflexivity|]. simpl in E. injection E as -> E.
        f_equal. now apply IHl. }
      apply I in P. rewrite <- P. apply expected_names_visible. }
  destruct names as [|name names]; [reflexivity|].
  unfold parse_uploadedFiles.
  assert (J : provided (Some (join [44%N] (name :: names))) = true).
  { inversion V as [|? ? Vn _]; subst.
    destruct name as [|c r]; [discriminate|].
    destruct names; reflexivity. }
  rewrite J. unfold narrowed.
  rewrite (split_join 44 (name :: names)) by (discriminate || exact C).
  apply forallb_filter_id. apply forallb_forall. intros file I.
  rewrite Forall_forall in V. rewrite trim_test, (V file I). reflexivity.
Qed.

End RoundTrip.

Module RoundTripSamples.
Import Sample.

Lemma uploaded_names_are_read_back_witness :
  POST (H:=platform) clock (inr upload) [] =
  (JsonResponse 200 upload_body, snd (POST (H:=platform) clock (inr upload) [])) /\
  parse_uploadedFiles
    (Some (lit "1700000000000.pdf,1700000000001.txt")) =
  [lit "1700000000000.pdf"; lit "1700000000001.txt"].
Proof.
  assert (P : POST (H:=platform) clock (inr upload) [] =
              (JsonResponse 200 upload_body,
               snd (POST (H:=platform) clock (inr upload) [])))
    by (vm_compute; reflexivity).
  split; [exact P|].
  exact (uploaded_names_are_read_back (H:=platform) clock upload [] _
           [lit "1700000000000.pdf"; lit "1700000000001.txt"] P
           ltac:(repeat constructor; vm_compute; intuition discriminate)).
Defined.

End RoundTripSamples.
